(** * TrippLite UPS driver: the register read engine of [tripplite/driver.py]

    A shallow embedding of [Battery._read] and [Battery.get] together with
    the static [structure] table, and the properties of the retry loop, the
    framing check, the per-format decoders and the snapshot builder. *)

From Stdlib Require Import ZArith List Bool Lia Floats Uint63.
From Stdlib Require Import Strings.String Strings.Ascii Strings.Byte.
Import ListNotations.

Open Scope Z_scope.

(** ** Python values and exceptions *)

(** The values that [_read] and [get] produce: [None], booleans, integers,
    floats and insertion-ordered dictionaries with string keys. *)
#[warnings="-register-all"] Inductive pyval : Type :=
| PNone
| PBool (b : bool)
| PInt (z : Z)
| PFloat (f : float)
| PDict (items : list (string * pyval)).

(** A dictionary is kept as its items in insertion order. *)
Definition dict : Type := list (string * pyval).

Fixpoint dict_get (d : dict) (k : string) : option pyval :=
  match d with
  | [] => None
  | (k', v') :: d' => if String.eqb k' k then Some v' else dict_get d' k
  end.

(** [d[k] = v]: an existing key keeps its position, a new key goes last. *)
Fixpoint dict_set (d : dict) (k : string) (v : pyval) : dict :=
  match d with
  | [] => [(k, v)]
  | (k', v') :: d' =>
      if String.eqb k' k then (k', v) :: d' else (k', v') :: dict_set d' k v
  end.

(** The exceptions the driver can meet.  [IOError] is the only class that
    [get] catches. *)
Inductive exn : Type :=
| IOError (msg : string)
| IndexError
| KeyError (key : string)
| TypeError
| ValueError.

Inductive result (A : Type) : Type :=
| Ok (a : A)
| Raise (e : exn).
Arguments Ok {A} a.
Arguments Raise {A} e.

Definition is_IOError (e : exn) : bool :=
  match e with IOError _ => true | _ => false end.

Definition rbind {A B} (r : result A) (k : A -> result B) : result B :=
  match r with
  | Ok a => k a
  | Raise e => Raise e
  end.

Notation "'let*' x ':=' r 'in' k" := (rbind r (fun x => k))
  (at level 10, x name, r at level 100, k at level 200).

(** ** The register table *)

(** One register entry of [structure]: the dictionary with the keys
    ['address'], ['bytes'], ['format'] and, for bit fields, ['keys']. *)
Record options : Type := mkOptions {
  address : Z;
  bytes : Z;
  format : string;
  keys : option (list string)
}.

(** A category of [structure] is either one register (the dictionary has an
    ['address'] key) or a dictionary of named registers. *)
Inductive data : Type :=
| Leaf (o : options)
| Branch (subs : list (string * options)).

Definition int1 (a : Z) : options := mkOptions a 1 "i" None.
Definition int2 (a : Z) : options := mkOptions a 2 "i" None.
Definition float2 (a : Z) : options := mkOptions a 2 "f" None.

Definition status_keys : list string :=
  [ "shutdown imminent"; "ac present"; "charging"; "discharging";
    "needs replacement"; "below remaining capacity"; "fully charged";
    "fully discharged" ]%string.

Definition structure : list (string * data) :=
  [ ("config"%string,
      Branch [ ("voltage"%string, int1 48);
               ("frequency"%string, int1 2);
               ("power"%string, int2 3) ]);
    ("status"%string,
      Leaf (mkOptions 50 1 "b" (Some status_keys)));
    ("input"%string,
      Branch [ ("voltage"%string, float2 24);
               ("frequency"%string, float2 25) ]);
    ("output"%string,
      Branch [ ("voltage"%string, float2 27);
               ("power"%string, int2 71) ]);
    ("health"%string, Leaf (int1 52));
    ("time to empty"%string, Leaf (int2 53)) ].

(** ** Decoding one report *)

(** [report[i]] on the list of byte values that the HID layer returns. *)
Definition getitem (report : list byte) (i : nat) : result Z :=
  match nth_error report i with
  | Some b => Ok (Z.of_N (Byte.to_N b))
  | None => Raise IndexError
  end.

(** Binary digits of a positive number, most significant first. *)
Fixpoint bin_pos (p : positive) : list ascii :=
  match p with
  | xH => ["1"%char]
  | xO p' => bin_pos p' ++ ["0"%char]
  | xI p' => bin_pos p' ++ ["1"%char]
  end.

Definition zfill (width : nat) (s : list ascii) : list ascii :=
  repeat "0"%char (width - List.length s) ++ s.

(** ['{:08b}'.format(z)]: binary, zero-padded to a width of eight, the sign
    counting towards the width. *)
Definition format_08b (z : Z) : list ascii :=
  match z with
  | Z0 => zfill 8 ["0"%char]
  | Zpos p => zfill 8 (bin_pos p)
  | Zneg p => "-"%char :: zfill 7 (bin_pos p)
  end.

(** [int(v)] on a one-character string. *)
Definition py_int (v : ascii) : result Z :=
  let n := Z.of_nat (nat_of_ascii v) in
  if (48 <=? n) && (n <=? 57) then Ok (n - 48) else Raise ValueError.

(** [bool(n)] on an integer. *)
Definition py_bool (n : Z) : bool := negb (n =? 0).

(** [{k: bool(int(v)) for k, v in pairs}], started from the items [acc]. *)
Fixpoint flags (pairs : list (string * ascii)) (acc : dict) : result dict :=
  match pairs with
  | [] => Ok acc
  | (k, v) :: rest =>
      let* n := py_int v in
      flags rest (dict_set acc k (PBool (py_bool n)))
  end.

(** [n / 10.0] for an integer [n]: the integer is converted to a double
    (exactly, for the 16-bit values met here) and divided. *)
Definition div10 (n : Z) : float :=
  PrimFloat.div (PrimFloat.of_uint63 (Uint63.of_Z n)) 10%float.

(** The part of [_read] after a non-empty report has arrived: the address
    check and the decoder selected by ['format'] and ['bytes']. *)
Definition decode_report (o : options) (report : list byte) : result pyval :=
  let* r0 := getitem report 0 in
  if negb (address o =? r0) then Raise (IOError "Received unexpected data.")
  else if String.eqb (format o) "b" then
    let* r1 := getitem report 1 in
    let bits := rev (format_08b r1) in
    let* ks := match keys o with
               | Some ks => Ok ks
               | None => Raise (KeyError "keys")
               end in
    let* d := flags (combine ks bits) [] in
    Ok (PDict d)
  else if String.eqb (format o) "i" && (bytes o =? 2) then
    let* r2 := getitem report 2 in
    let* r1 := getitem report 1 in
    Ok (PInt (Z.shiftl r2 8 + r1))
  else if String.eqb (format o) "i" && (bytes o =? 1) then
    let* r1 := getitem report 1 in
    Ok (PInt r1)
  else if String.eqb (format o) "f" then
    let* r2 := getitem report 2 in
    let* r1 := getitem report 1 in
    Ok (PFloat (div10 (Z.shiftl r2 8 + r1)))
  else Ok PNone.

(** ** Vocabulary of the statements *)

(** The value of [report[i]] when the index is in range. *)
Definition byte_at (report : list byte) (i : nat) : Z :=
  Z.of_N (Byte.to_N (nth i report x00)).

(** The request that [_read] sends for a register. *)
Definition request (o : options) : Z * Z := (address o, bytes o + 1).

(** The shapes of register that the table may hold: a bit field with its
    flag names or a one-byte integer over one payload byte, a two-byte
    integer or a scaled float over two. *)
Definition well_formed (o : options) : bool :=
  (String.eqb (format o) "b" && (bytes o =? 1)
     && match keys o with Some _ => true | None => false end)
  || (String.eqb (format o) "i" && (bytes o =? 1))
  || (String.eqb (format o) "i" && (bytes o =? 2))
  || (String.eqb (format o) "f" && (bytes o =? 2)).

Definition well_formed_data (d : data) : bool :=
  match d with
  | Leaf o => well_formed o
  | Branch subs => forallb (fun sub => well_formed (snd sub)) subs
  end.

Definition well_formed_table (table : list (string * data)) : bool :=
  forallb (fun item => well_formed_data (snd item)) table.

(** The registers of a table, in the order in which [get] reads them. *)
Definition registers (table : list (string * data)) : list options :=
  flat_map (fun item =>
              match snd item with
              | Leaf o => [o]
              | Branch subs => map snd subs
              end) table.

(** The dictionary built by assigning the items one after the other. *)
Definition dict_of_items (items : list (string * pyval)) : dict :=
  fold_left (fun d item => dict_set d (fst item) (snd item)) items [].

(** The character of a bit in the output of ['{:08b}'.format]. *)
Definition bitchar (t : bool) : ascii := if t then "1"%char else "0"%char.

(** The flag names paired with the eight bits of the payload byte [b], the
    least significant bit first; the shorter list decides the length. *)
Definition bit_items (ks : list string) (b : Z) : dict :=
  combine ks (map (fun i => PBool (Z.testbit b (Z.of_nat i))) (seq 0 8)).

(** A flat table: every category is a single register. *)
Definition flat_table (regs : list (string * options)) : list (string * data) :=
  map (fun reg => (fst reg, Leaf (snd reg))) regs.

(** The snapshot that holds, in the order of [regs], the categories for
    which [outcome] gives a value, and nothing for the others. *)
Definition snapshot_of (regs : list (string * options))
    (outcome : string -> option pyval) : dict :=
  flat_map (fun reg =>
              match outcome (fst reg) with
              | Some v => [(fst reg, v)]
              | None => []
              end) regs.

(** The 256 byte values. *)
Definition all_bytes : list byte :=
  Eval vm_compute in
    flat_map (fun n => match Byte.of_N n with Some b => [b] | None => [] end)
             (map N.of_nat (seq 0 256)).

(** ** The driver over an abstract HID device *)

Section Driver.

(** The HID handle: its state and [get_feature_report], which answers a
    request for a report number and a length with a list of bytes. *)
Variable device : Type.
Variable get_feature_report : device -> Z -> Z -> list byte * device.

(** The state a call of [get] runs in: its local [output], the device, and
    the requests sent to the device so far (oldest first). *)
Record state : Type := mkState {
  output : dict;
  dev : device;
  calls : list (Z * Z)
}.

Definition M (A : Type) : Type := state -> result A * state.

Definition ret {A} (a : A) : M A := fun s => (Ok a, s).

Definition raise {A} (e : exn) : M A := fun s => (Raise e, s).

Definition bind {A B} (m : M A) (k : A -> M B) : M B :=
  fun s =>
    match m s with
    | (Ok a, s') => k a s'
    | (Raise e, s') => (Raise e, s')
    end.

Definition lift {A} (r : result A) : M A := fun s => (r, s).

Notation "x <- m ;; k" := (bind m (fun x => k))
  (at level 100, m at next level, right associativity).
Notation "m ;;; k" := (bind m (fun _ => k))
  (at level 100, right associativity).

(** [self.device.get_feature_report(a, n)] *)
Definition device_get_feature_report (a n : Z) : M (list byte) :=
  fun s =>
    let (report, d') := get_feature_report (dev s) a n in
    (Ok report, mkState (output s) d' (calls s ++ [(a, n)])).

(** [Battery._read(options, retries)] *)
Fixpoint _read (o : options) (retries : nat) : M pyval :=
  report <- device_get_feature_report (address o) (bytes o + 1) ;;
  match report with
  | [] =>
      match retries with
      | S r => _read o r
      | O => raise (IOError "Did not receive data.")
      end
  | _ :: _ => lift (decode_report o report)
  end.

(** [output = d] *)
Definition set_output (d : dict) : M unit :=
  fun s => (Ok tt, mkState d (dev s) (calls s)).

Definition get_output : M dict := fun s => (Ok (output s), s).

(** [output[k] = v] *)
Definition setitem (k : string) (v : pyval) : M unit :=
  fun s => (Ok tt, mkState (dict_set (output s) k v) (dev s) (calls s)).

(** [output[k1][k2] = v]: the dictionary stored under [k1] is updated in
    place. *)
Definition setitem2 (k1 k2 : string) (v : pyval) : M unit :=
  fun s =>
    match dict_get (output s) k1 with
    | Some (PDict inner) =>
        (Ok tt, mkState (dict_set (output s) k1 (PDict (dict_set inner k2 v)))
                  (dev s) (calls s))
    | Some _ => (Raise TypeError, s)
    | None => (Raise (KeyError k1), s)
    end.

(** [try: body  except IOError: handler] *)
Definition try_except_IOError (body handler : M unit) : M unit :=
  fun s =>
    match body s with
    | (Raise (IOError _), s') => handler s'
    | r => r
    end.

Fixpoint for_each {A} (l : list A) (body : A -> M unit) : M unit :=
  match l with
  | [] => ret tt
  | x :: l' => body x ;;; for_each l' body
  end.

(** The body of the loop of [get] for one item of the table. *)
Definition get_category (item : string * data) : M unit :=
  let (category, d) := item in
  try_except_IOError
    match d with
    | Leaf o =>
        v <- _read o 3 ;;
        setitem category v
    | Branch subs =>
        setitem category (PDict []) ;;;
        for_each subs (fun sub =>
          let (subcategory, o) := sub in
          v <- _read o 3 ;;
          setitem2 category subcategory v)
    end
    (ret tt).

(** [Battery.get()], over the table [table]. *)
Definition get (table : list (string * data)) : M dict :=
  set_output [] ;;;
  for_each table get_category ;;;
  get_output.

(** ** Vocabulary of the statements about devices *)

(** The same state with another value of [output]. *)
Definition with_output (out : dict) (s : state) : state :=
  mkState out (dev s) (calls s).

(** The result of [m] and the [output] it leaves depend on nothing but the
    [output] it starts from. *)
Definition output_determined {A} (m : M A) : Prop :=
  forall s1 s2,
    output s1 = output s2 ->
    fst (m s1) = fst (m s2) /\ output (snd (m s1)) = output (snd (m s2)).

(** The device never answers the request of the register [o] with a
    report that starts with the register's address and is shorter than the
    request asks for. *)
Definition no_truncated_echo (o : options) : Prop :=
  forall d b rest,
    fst (get_feature_report d (address o) (bytes o + 1)) = b :: rest ->
    Z.of_N (Byte.to_N b) = address o ->
    bytes o + 1 <= Z.of_nat (List.length (b :: rest)).

(** [k] requests in a row for [(a, n)] are each answered with the empty
    list, and take the device from [d] to [d']. *)
Fixpoint empty_answers (k : nat) (a n : Z) (d d' : device) : Prop :=
  match k with
  | O => d' = d
  | S k' =>
      exists d1, get_feature_report d a n = ([], d1)
                 /\ empty_answers k' a n d1 d'
  end.

(** Reading the registers [subs] one after the other from the state [s]
    succeeds for each of them, gives the values [items] and ends in [s']. *)
Fixpoint reads_ok (subs : list (string * options)) (s : state)
    (items : list (string * pyval)) (s' : state) : Prop :=
  match subs with
  | [] => items = [] /\ s' = s
  | (k, o) :: rest =>
      exists v s1 items',
        _read o 3 s = (Ok v, s1)
        /\ reads_ok rest s1 items' s'
        /\ items = (k, v) :: items'
  end.

End Driver.

Arguments output {device} s.
Arguments dev {device} s.
Arguments calls {device} s.
Arguments mkState {device} output dev calls.
Arguments ret {device A} a s.
Arguments raise {device A} e s.
Arguments bind {device A B} m k s.
Arguments lift {device A} r s.
Arguments for_each {device A} l body.
Arguments set_output {device} d s.
Arguments get_output {device} s.
Arguments setitem {device} k v s.
Arguments setitem2 {device} k1 k2 v s.
Arguments try_except_IOError {device} body handler s.
Arguments device_get_feature_report {device} get_feature_report a n s.
Arguments _read {device} get_feature_report o retries.
Arguments get_category {device} get_feature_report item.
Arguments get {device} get_feature_report table.
Arguments with_output {device} out s.
Arguments output_determined {device A} m.
Arguments no_truncated_echo {device} get_feature_report o.
Arguments empty_answers {device} get_feature_report k a n d d'.
Arguments reads_ok {device} get_feature_report subs s items s'.

(** ** Devices used in the examples *)

(** A device that answers every request from a fixed function of the report
    number and the length; it has no state. *)
Definition fixed_device (f : Z -> Z -> list byte) : unit -> Z -> Z -> list byte * unit :=
  fun _ a n => (f a n, tt).

(** A device that plays back a list of answers, one per request, and answers
    with the empty list once the list is used up. *)
Definition scripted_device : list (list byte) -> Z -> Z -> list byte * list (list byte) :=
  fun script _ _ =>
    match script with
    | [] => ([], [])
    | r :: script' => (r, script')
    end.

(** A device that counts the requests it has served and answers from a
    fixed function of the report number and the length. *)
Definition counting_device (f : Z -> Z -> list byte) : nat -> Z -> Z -> list byte * nat :=
  fun served a n => (f a n, S served).

Definition byte_of_Z (z : Z) : byte :=
  match Byte.of_N (Z.to_N z) with Some b => b | None => x00 end.

Definition start {device} (d : device) : state device := mkState [] d [].

(** Answers with the report number and two payload bytes, except for report
    2, which is never answered. *)
Definition no_frequency (a n : Z) : list byte :=
  if a =? 2 then [] else [byte_of_Z a; x05; x00].

(** Never answers report 2, answers report 50 with the single byte 0xff,
    and answers every other report with the report number and two payload
    bytes. *)
Definition mixed_answers (a n : Z) : list byte :=
  if a =? 2 then [] else if a =? 50 then [xff] else [byte_of_Z a; x05; x00].

(** Answers with the report number alone. *)
Definition address_only (a n : Z) : list byte := [byte_of_Z a].

(** Three single-register categories; with [no_frequency] the second one
    cannot be read. *)
Definition abc_registers : list (string * options) :=
  [("a"%string, int1 1); ("b"%string, int1 2); ("c"%string, int2 3)].

Definition abc_outcome (c : string) : option pyval :=
  if String.eqb c "a" then Some (PInt 5)
  else if String.eqb c "c" then Some (PInt 5)
  else None.

Definition letters : list string :=
  [ "a"; "b"; "c"; "d"; "e"; "f"; "g"; "h"; "i" ]%string.

(** ** Properties of the reader *)

Section ReaderProperties.

Variable device : Type.
Variable gfr : device -> Z -> Z -> list byte * device.

(** One step of [_read]: the request, then the retry or the decoding. *)
Lemma _read_eq (o : options) (retries : nat) (s : state device) :
  _read gfr o retries s =
  let (report, d') := gfr (dev s) (address o) (bytes o + 1) in
  let s' := mkState (output s) d' (calls s ++ [request o]) in
  match report with
  | [] =>
      match retries with
      | S r => _read gfr o r s'
      | O => (Raise (IOError "Did not receive data."), s')
      end
  | _ :: _ => (decode_report o report, s')
  end.
Proof.
  destruct retries; cbn [_read]; unfold bind, device_get_feature_report, request;
    destruct (gfr (dev s) (address o) (bytes o + 1)) as [report d'];
    destruct report; reflexivity.
Qed.

(** [_read] never touches [output]. *)
Lemma _read_output (o : options) (retries : nat) (s : state device) :
  output (snd (_read gfr o retries s)) = output s.
Proof.
  revert s; induction retries as [|r IH]; intros s; rewrite _read_eq;
    destruct (gfr (dev s) (address o) (bytes o + 1)) as [report d'];
    destruct report; cbn; try reflexivity.
  rewrite IH; reflexivity.
Qed.

(** What [_read] does is the same whatever [output] holds. *)
Lemma _read_with_output (o : options) (retries : nat) (out : dict)
    (s : state device) :
  _read gfr o retries (with_output out s) =
  (fst (_read gfr o retries s), with_output out (snd (_read gfr o retries s))).
Proof.
  revert s; induction retries as [|r IH]; intros s;
    rewrite (_read_eq o _ s), (_read_eq o _ (with_output out s)); cbn [dev with_output calls output];
    destruct (gfr (dev s) (address o) (bytes o + 1)) as [report d'];
    destruct report; cbn; try reflexivity.
  apply (IH (mkState (output s) d' (calls s ++ [request o]))).
Qed.

(** A non-empty answer after [k] empty ones is decoded, provided the
    retries are not used up; [k + 1] requests have been sent. *)
Lemma _read_after_empty (o : options) (k retries : nat) (s : state device)
    (d1 d2 : device) (b : byte) (rest : list byte) :
  (k <= retries)%nat ->
  empty_answers gfr k (address o) (bytes o + 1) (dev s) d1 ->
  gfr d1 (address o) (bytes o + 1) = (b :: rest, d2) ->
  _read gfr o retries s =
  (decode_report o (b :: rest),
   mkState (output s) d2 (calls s ++ repeat (request o) (S k))).
Proof.
  revert retries s; induction k as [|k IH]; intros retries s Hk He Hg.
  - cbn in He; subst d1. rewrite _read_eq, Hg. reflexivity.
  - destruct He as (dm & Hm & He).
    destruct retries as [|r]; [lia|].
    rewrite _read_eq, Hm. cbn zeta.
    rewrite (IH r (mkState (output s) dm (calls s ++ [request o]))
               ltac:(lia) He Hg).
    cbn [output calls]. rewrite <- app_assoc. reflexivity.
Qed.

(** When every answer is empty the retries run out: [retries + 1] requests
    have been sent and the reader gives up. *)
Lemma _read_all_empty (o : options) (retries : nat) (s : state device)
    (d' : device) :
  empty_answers gfr (S retries) (address o) (bytes o + 1) (dev s) d' ->
  _read gfr o retries s =
  (Raise (IOError "Did not receive data."),
   mkState (output s) d' (calls s ++ repeat (request o) (S retries))).
Proof.
  revert s; induction retries as [|r IH]; intros s (dm & Hm & He).
  - cbn in He; subst d'. rewrite _read_eq, Hm. reflexivity.
  - rewrite _read_eq, Hm. cbn zeta.
    rewrite (IH (mkState (output s) dm (calls s ++ [request o])) He).
    cbn [output calls]. rewrite <- app_assoc. reflexivity.
Qed.

(** C4. An empty answer is retried with a fresh request, at most three more
    times: when the four requests are all answered with the empty list, the
    read fails with the no-data [IOError] after exactly four requests; when
    at most three empty answers are followed by a frame that decodes, the
    read succeeds with the decoded value, one request per answer. *)
Theorem read_retry_bound (o : options) (s : state device) :
  (forall d',
      empty_answers gfr 4 (address o) (bytes o + 1) (dev s) d' ->
      _read gfr o 3 s =
      (Raise (IOError "Did not receive data."),
       mkState (output s) d' (calls s ++ repeat (request o) 4)))
  /\ (forall k d1 d2 report v,
         (k <= 3)%nat ->
         empty_answers gfr k (address o) (bytes o + 1) (dev s) d1 ->
         gfr d1 (address o) (bytes o + 1) = (report, d2) ->
         decode_report o report = Ok v ->
         _read gfr o 3 s =
         (Ok v, mkState (output s) d2 (calls s ++ repeat (request o) (S k)))).
Proof.
  split.
  - intros d' He. apply _read_all_empty; exact He.
  - intros k d1 d2 report v Hk He Hg Hv.
    destruct report as [|b rest]; [discriminate Hv|].
    rewrite (_read_after_empty o k 3 s d1 d2 b rest Hk He Hg), Hv.
    reflexivity.
Qed.

(** C5. A non-empty answer whose first byte is not the register's address
    fails with the unexpected-data [IOError] whatever the rest of the answer
    holds and however many retries are left; a single request has been
    sent. *)
Theorem read_framing_mismatch (o : options) (retries : nat)
    (s : state device) (b : byte) (payload : list byte) (d' : device) :
  gfr (dev s) (address o) (bytes o + 1) = (b :: payload, d') ->
  Z.of_N (Byte.to_N b) <> address o ->
  _read gfr o retries s =
  (Raise (IOError "Received unexpected data."),
   mkState (output s) d' (calls s ++ [request o])).
Proof.
  intros Hg Hb. rewrite _read_eq, Hg. cbn zeta.
  unfold decode_report, getitem. cbn [nth_error rbind].
  destruct (Z.eqb_spec (address o) (Z.of_N (Byte.to_N b))) as [E|E].
  - congruence.
  - reflexivity.
Qed.

End ReaderProperties.

(** ** Properties of the decoder *)

Lemma getitem_in_range (report : list byte) (i : nat) :
  (i < List.length report)%nat -> getitem report i = Ok (byte_at report i).
Proof.
  intros H. unfold getitem, byte_at.
  rewrite (nth_error_nth' report x00 H). reflexivity.
Qed.

Lemma getitem_out_of_range (report : list byte) (i : nat) :
  (List.length report <= i)%nat -> getitem report i = Raise IndexError.
Proof.
  intros H. unfold getitem.
  apply nth_error_None in H. rewrite H. reflexivity.
Qed.

Lemma byte_at_range (report : list byte) (i : nat) :
  0 <= byte_at report i <= 255.
Proof.
  unfold byte_at. pose proof (Byte.to_N_bounded (nth i report x00)). lia.
Qed.

Lemma all_bytes_complete (b : byte) : In b all_bytes.
Proof.
  assert (H : existsb (Byte.eqb b) all_bytes = true)
    by (destruct b; vm_compute; reflexivity).
  apply existsb_exists in H. destruct H as (x & Hin & Hx).
  apply Byte.byte_dec_bl in Hx. subst x. exact Hin.
Qed.

(** The scaled value of every pair of payload bytes is at least zero (and so
    is a number). *)
Lemma div10_nonneg (lo hi : byte) :
  PrimFloat.leb 0%float
    (div10 (Z.of_N (Byte.to_N lo) + Z.shiftl (Z.of_N (Byte.to_N hi)) 8)) = true.
Proof.
  assert (H : forallb (fun h =>
                forallb (fun l =>
                  PrimFloat.leb 0%float
                    (div10 (Z.of_N (Byte.to_N l)
                            + Z.shiftl (Z.of_N (Byte.to_N h)) 8)))
                  all_bytes) all_bytes = true)
    by (vm_compute; reflexivity).
  rewrite forallb_forall in H.
  specialize (H hi (all_bytes_complete hi)).
  rewrite forallb_forall in H.
  exact (H lo (all_bytes_complete lo)).
Qed.

(** On a report that starts with the register's address the address check
    passes and the decoder chosen by the format runs. *)
Lemma decode_report_framed (o : options) (report : list byte) :
  (1 <= List.length report)%nat ->
  byte_at report 0 = address o ->
  decode_report o report =
  if String.eqb (format o) "b" then
    let* r1 := getitem report 1 in
    let bits := rev (format_08b r1) in
    let* ks := match keys o with
               | Some ks => Ok ks
               | None => Raise (KeyError "keys")
               end in
    let* d := flags (combine ks bits) [] in
    Ok (PDict d)
  else if String.eqb (format o) "i" && (bytes o =? 2) then
    let* r2 := getitem report 2 in
    let* r1 := getitem report 1 in
    Ok (PInt (Z.shiftl r2 8 + r1))
  else if String.eqb (format o) "i" && (bytes o =? 1) then
    let* r1 := getitem report 1 in
    Ok (PInt r1)
  else if String.eqb (format o) "f" then
    let* r2 := getitem report 2 in
    let* r1 := getitem report 1 in
    Ok (PFloat (div10 (Z.shiftl r2 8 + r1)))
  else Ok PNone.
Proof.
  intros Hlen Haddr. unfold decode_report.
  rewrite (getitem_in_range report 0) by lia. cbn [rbind].
  rewrite Haddr, Z.eqb_refl. reflexivity.
Qed.

(** C7. On a report that starts with the register's address and has a byte
    for every payload position: a one-byte integer register decodes to the
    byte at offset 1, between 0 and 255; a two-byte integer register decodes
    to byte 1 plus byte 2 shifted left by eight, between 0 and 65535; a
    scaled float register decodes to that same sum divided by 10.0, which is
    not negative; and the report [0x30, 0x05, 0x00] read as a scaled float at
    address 0x30 gives 0.5. *)
Theorem decode_integers_and_float (o : options) (report : list byte) :
  bytes o + 1 <= Z.of_nat (List.length report) ->
  byte_at report 0 = address o ->
  (format o = "i"%string -> bytes o = 1 ->
     decode_report o report = Ok (PInt (byte_at report 1))
     /\ 0 <= byte_at report 1 <= 255)
  /\ (format o = "i"%string -> bytes o = 2 ->
        decode_report o report =
        Ok (PInt (byte_at report 1 + Z.shiftl (byte_at report 2) 8))
        /\ 0 <= byte_at report 1 + Z.shiftl (byte_at report 2) 8 <= 65535)
  /\ (format o = "f"%string -> bytes o = 2 ->
        decode_report o report =
        Ok (PFloat (div10 (byte_at report 1 + Z.shiftl (byte_at report 2) 8)))
        /\ PrimFloat.leb 0%float
             (div10 (byte_at report 1 + Z.shiftl (byte_at report 2) 8)) = true)
  /\ decode_report (float2 48) [x30; x05; x00] = Ok (PFloat 0.5%float).
Proof.
  intros Hlen Haddr.
  pose proof (byte_at_range report 1) as R1.
  pose proof (byte_at_range report 2) as R2.
  assert (R16 : 0 <= byte_at report 1 + Z.shiftl (byte_at report 2) 8 <= 65535)
    by (rewrite Z.shiftl_mul_pow2 by lia; change (2 ^ 8) with 256; lia).
  split; [|split; [|split]].
  - intros Hf Hb. split; [|exact R1].
    rewrite decode_report_framed by (try lia; exact Haddr).
    rewrite Hf, Hb. cbn [String.eqb Ascii.eqb Bool.eqb andb Z.eqb Pos.eqb].
    rewrite (getitem_in_range report 1) by lia. reflexivity.
  - intros Hf Hb. split; [|exact R16].
    rewrite decode_report_framed by (try lia; exact Haddr).
    rewrite Hf, Hb. cbn [String.eqb Ascii.eqb Bool.eqb andb Z.eqb Pos.eqb].
    rewrite (getitem_in_range report 2), (getitem_in_range report 1) by lia.
    cbn [rbind]. rewrite Z.add_comm. reflexivity.
  - intros Hf Hb. split; [|unfold byte_at; apply div10_nonneg].
    rewrite decode_report_framed by (try lia; exact Haddr).
    rewrite Hf. cbn [String.eqb Ascii.eqb Bool.eqb andb].
    rewrite (getitem_in_range report 2), (getitem_in_range report 1) by lia.
    cbn [rbind]. rewrite Z.add_comm. reflexivity.
  - vm_compute. reflexivity.
Qed.

(** *** Dictionaries with distinct keys *)

Lemma dict_set_fresh (d : dict) (k : string) (v : pyval) :
  ~ In k (map fst d) -> dict_set d k v = d ++ [(k, v)].
Proof.
  induction d as [|[k' v'] d IH]; intros Hk; cbn [dict_set app].
  - reflexivity.
  - cbn [map fst In] in Hk.
    destruct (String.eqb_spec k' k) as [E|E].
    + exfalso; apply Hk; left; exact E.
    + rewrite IH by (intros H; apply Hk; right; exact H). reflexivity.
Qed.

Lemma dict_get_absent (d : dict) (k : string) :
  ~ In k (map fst d) -> dict_get d k = None.
Proof.
  induction d as [|[k' v'] d IH]; intros Hk; cbn [dict_get].
  - reflexivity.
  - cbn [map fst In] in Hk.
    destruct (String.eqb_spec k' k) as [E|E].
    + exfalso; apply Hk; left; exact E.
    + apply IH. intros H; apply Hk; right; exact H.
Qed.

Lemma map_fst_combine {A B} (l : list A) (l' : list B) :
  map fst (combine l l') = firstn (List.length l') l.
Proof.
  revert l'; induction l as [|a l IH]; intros [|b l']; cbn;
    try reflexivity.
  rewrite IH. reflexivity.
Qed.

Lemma dict_get_combine (ks : list string) (vs : list pyval) (i : nat)
    (k : string) (v : pyval) :
  NoDup ks -> nth_error ks i = Some k -> nth_error vs i = Some v ->
  dict_get (combine ks vs) k = Some v.
Proof.
  revert vs i; induction ks as [|k0 ks IH]; intros vs i Hnd Hk Hv.
  - destruct i; discriminate Hk.
  - destruct vs as [|v0 vs]; [destruct i; discriminate Hv|].
    inversion Hnd as [|? ? Hnotin Hnd']; subst.
    destruct i as [|i]; cbn in Hk, Hv; cbn [combine dict_get].
    + injection Hk as ->. injection Hv as ->.
      rewrite String.eqb_refl. reflexivity.
    + destruct (String.eqb_spec k0 k) as [E|E].
      * subst k0. exfalso. apply Hnotin. eapply nth_error_In; exact Hk.
      * eapply IH; eassumption.
Qed.

(** In a list without repetition the names from position [n] on are not
    among the first [n]. *)
Lemma NoDup_beyond_firstn (ks : list string) (n i : nat) (k : string) :
  NoDup ks -> (n <= i)%nat -> nth_error ks i = Some k ->
  ~ In k (firstn n ks).
Proof.
  revert n i; induction ks as [|k0 ks IH]; intros n i Hnd Hn Hk.
  - destruct i; discriminate Hk.
  - inversion Hnd as [|? ? Hnotin Hnd']; subst.
    destruct n as [|n]; [cbn; tauto|].
    destruct i as [|i]; [lia|]. cbn in Hk. cbn [firstn In].
    intros [E|H].
    + subst k0. apply Hnotin. eapply nth_error_In; exact Hk.
    + exact (IH n i Hnd' ltac:(lia) Hk H).
Qed.

(** *** The bit field *)

Lemma bits_of_byte (b : byte) :
  rev (format_08b (Z.of_N (Byte.to_N b))) =
  map bitchar
    (map (fun i => Z.testbit (Z.of_N (Byte.to_N b)) (Z.of_nat i)) (seq 0 8)).
Proof. destruct b; vm_compute; reflexivity. Qed.

Lemma flags_bits (ks : list string) (bs : list bool) (acc : dict) :
  NoDup ks ->
  (forall k, In k ks -> ~ In k (map fst acc)) ->
  flags (combine ks (map bitchar bs)) acc =
  Ok (acc ++ combine ks (map PBool bs)).
Proof.
  revert bs acc; induction ks as [|k ks IH]; intros bs acc Hnd Hacc.
  - cbn. rewrite app_nil_r. reflexivity.
  - destruct bs as [|t bs]; cbn [map combine flags].
    + rewrite app_nil_r. reflexivity.
    + inversion Hnd as [|? ? Hnotin Hnd']; subst.
      assert (Hint : py_int (bitchar t) = Ok (if t then 1 else 0))
        by (destruct t; reflexivity).
      rewrite Hint. cbn [rbind].
      rewrite dict_set_fresh by (apply Hacc; left; reflexivity).
      rewrite IH.
      * rewrite <- app_assoc. cbn [app].
        destruct t; reflexivity.
      * exact Hnd'.
      * intros k' Hk'. rewrite map_app, in_app_iff. cbn [map fst In].
        intros [H|[H|[]]].
        -- exact (Hacc k' (or_intror Hk') H).
        -- subst k'. exact (Hnotin Hk').
Qed.

(** With distinct flag names the bit field decodes to the names paired with
    the bits of the byte at offset 1. *)
Lemma decode_bitfield_items (o : options) (ks : list string)
    (report : list byte) :
  format o = "b"%string -> keys o = Some ks -> NoDup ks ->
  (2 <= List.length report)%nat -> byte_at report 0 = address o ->
  decode_report o report = Ok (PDict (bit_items ks (byte_at report 1))).
Proof.
  intros Hf Hks Hnd Hlen Haddr.
  rewrite decode_report_framed by (try lia; exact Haddr).
  rewrite Hf, Hks. cbn [String.eqb Ascii.eqb Bool.eqb].
  rewrite (getitem_in_range report 1) by lia. cbn [rbind].
  unfold byte_at at 1. rewrite bits_of_byte.
  rewrite flags_bits by (try exact Hnd; intros ? ? []).
  cbn [app rbind]. unfold bit_items, byte_at.
  rewrite map_map. reflexivity.
Qed.

Lemma bit_items_names (ks : list string) (b : Z) :
  map fst (bit_items ks b) = firstn 8 ks.
Proof. unfold bit_items. rewrite map_fst_combine. reflexivity. Qed.

Lemma bit_items_length (ks : list string) (b : Z) :
  List.length (bit_items ks b) = Nat.min (List.length ks) 8.
Proof. unfold bit_items. rewrite length_combine. reflexivity. Qed.

Lemma bit_items_get (ks : list string) (b : Z) (i : nat) (k : string) :
  NoDup ks -> (i < 8)%nat -> nth_error ks i = Some k ->
  dict_get (bit_items ks b) k = Some (PBool (Z.testbit b (Z.of_nat i))).
Proof.
  intros Hnd Hi Hk. unfold bit_items.
  apply (dict_get_combine ks _ i k _ Hnd Hk).
  rewrite nth_error_map, nth_error_seq.
  destruct (Nat.ltb_spec i 8); [reflexivity|lia].
Qed.

(** A report that starts with the register's address but is too short for
    the register's payload makes the decoder index past its end. *)
Lemma decode_report_short (o : options) (report : list byte) :
  well_formed o = true ->
  (1 <= List.length report)%nat ->
  byte_at report 0 = address o ->
  Z.of_nat (List.length report) < bytes o + 1 ->
  decode_report o report = Raise IndexError.
Proof.
  intros Hwf Hlen Haddr Hshort.
  rewrite decode_report_framed by assumption.
  unfold well_formed in Hwf.
  repeat rewrite orb_true_iff in Hwf. repeat rewrite andb_true_iff in Hwf.
  destruct Hwf as [[[[[Hf Hb] _]|[Hf Hb]]|[Hf Hb]]|[Hf Hb]];
    apply String.eqb_eq in Hf; apply Z.eqb_eq in Hb; rewrite Hf;
    try rewrite Hb; cbn [String.eqb Ascii.eqb Bool.eqb andb Z.eqb Pos.eqb].
  - rewrite (getitem_out_of_range report 1) by lia. reflexivity.
  - rewrite (getitem_out_of_range report 1) by lia. reflexivity.
  - rewrite (getitem_out_of_range report 2) by lia. reflexivity.
  - rewrite (getitem_out_of_range report 2) by lia. reflexivity.
Qed.

(** C6 (amended). For a bit-field register whose flag names are pairwise
    distinct and a report that starts with the register's address and holds
    the payload byte, the decoder takes the byte at offset 1 and pairs the
    flag names with its bits: the names of the result are the first eight
    flag names in declared order, and the name at position [i < 8] is mapped
    to true exactly when bit [i] (0 the least significant) is set; bits past
    the last flag name are ignored.  The payload 0b00000011 against the names
    a, b, c gives a: true, b: true, c: false. *)
Theorem decode_bitfield (o : options) (ks : list string)
    (report : list byte) :
  format o = "b"%string -> keys o = Some ks -> NoDup ks ->
  (2 <= List.length report)%nat -> byte_at report 0 = address o ->
  exists d,
    decode_report o report = Ok (PDict d)
    /\ map fst d = firstn 8 ks
    /\ (forall i k, (i < 8)%nat -> nth_error ks i = Some k ->
          dict_get d k = Some (PBool (Z.testbit (byte_at report 1) (Z.of_nat i))))
    /\ decode_report (mkOptions 50 1 "b" (Some ["a"; "b"; "c"]%string))
         [x32; x03]
       = Ok (PDict [("a"%string, PBool true); ("b"%string, PBool true);
                    ("c"%string, PBool false)]).
Proof.
  intros Hf Hks Hnd Hlen Haddr.
  exists (bit_items ks (byte_at report 1)).
  split; [|split; [|split]].
  - apply decode_bitfield_items; assumption.
  - apply bit_items_names.
  - intros i k Hi Hk. apply bit_items_get; assumption.
  - vm_compute. reflexivity.
Qed.

(** C10 (amended). For a bit-field register whose flag names are pairwise
    distinct the decoded mapping has exactly min(len(flag names), 8) entries:
    the byte is expanded to eight bit positions, a flag name declared past
    the eighth is not a key of the result, and with fewer than eight names
    the keys are just those names, the higher bits being dropped. *)
Theorem decode_bitfield_size (o : options) (ks : list string)
    (report : list byte) :
  format o = "b"%string -> keys o = Some ks -> NoDup ks ->
  (2 <= List.length report)%nat -> byte_at report 0 = address o ->
  exists d,
    decode_report o report = Ok (PDict d)
    /\ List.length d = Nat.min (List.length ks) 8
    /\ (forall i k, (8 <= i)%nat -> nth_error ks i = Some k ->
          dict_get d k = None)
    /\ ((List.length ks <= 8)%nat -> map fst d = ks).
Proof.
  intros Hf Hks Hnd Hlen Haddr.
  exists (bit_items ks (byte_at report 1)).
  split; [|split; [|split]].
  - apply decode_bitfield_items; assumption.
  - apply bit_items_length.
  - intros i k Hi Hk. apply dict_get_absent.
    rewrite bit_items_names.
    exact (NoDup_beyond_firstn ks 8 i k Hnd Hi Hk).
  - intros Hle. rewrite bit_items_names. apply firstn_all2. exact Hle.
Qed.

(** *** Assignments to a dictionary *)

Lemma dict_get_set_same (d : dict) (k : string) (v : pyval) :
  dict_get (dict_set d k v) k = Some v.
Proof.
  induction d as [|[k' v'] d IH]; cbn [dict_set dict_get].
  - rewrite String.eqb_refl. reflexivity.
  - destruct (String.eqb_spec k' k) as [E|E]; cbn [dict_get].
    + subst k'. rewrite String.eqb_refl. reflexivity.
    + destruct (String.eqb_spec k' k); [contradiction|]. exact IH.
Qed.

Lemma dict_set_set (d : dict) (k : string) (v w : pyval) :
  dict_set (dict_set d k v) k w = dict_set d k w.
Proof.
  induction d as [|[k' v'] d IH]; cbn [dict_set].
  - rewrite String.eqb_refl. reflexivity.
  - destruct (String.eqb_spec k' k) as [E|E]; cbn [dict_set].
    + subst k'. rewrite String.eqb_refl. reflexivity.
    + destruct (String.eqb_spec k' k); [contradiction|]. rewrite IH.
      reflexivity.
Qed.

Lemma dict_set_get (d : dict) (k : string) (v : pyval) :
  dict_get d k = Some v -> dict_set d k v = d.
Proof.
  induction d as [|[k' v'] d IH]; cbn [dict_set dict_get]; intros H.
  - discriminate H.
  - destruct (String.eqb_spec k' k) as [E|E].
    + injection H as ->. reflexivity.
    + rewrite (IH H). reflexivity.
Qed.

(** *** Reports of full length *)

(** The comprehension over the binary digits of a byte never fails. *)
Lemma flags_total (ks : list string) (bs : list bool) (acc : dict) :
  exists d, flags (combine ks (map bitchar bs)) acc = Ok d.
Proof.
  revert bs acc; induction ks as [|k ks IH]; intros bs acc.
  - exists acc. reflexivity.
  - destruct bs as [|t bs]; cbn [map combine flags].
    + exists acc. reflexivity.
    + assert (Hint : py_int (bitchar t) = Ok (if t then 1 else 0))
        by (destruct t; reflexivity).
      rewrite Hint. cbn [rbind]. apply IH.
Qed.

(** A report with a byte for every payload position of a well-formed
    register either decodes or fails the address check. *)
Lemma decode_report_total (o : options) (report : list byte) :
  well_formed o = true ->
  (1 <= List.length report)%nat ->
  bytes o + 1 <= Z.of_nat (List.length report) ->
  (exists v, decode_report o report = Ok v)
  \/ decode_report o report = Raise (IOError "Received unexpected data.").
Proof.
  intros Hwf Hlen Hfull.
  destruct (Z.eq_dec (byte_at report 0) (address o)) as [Haddr|Haddr].
  - left. rewrite decode_report_framed by assumption.
    unfold well_formed in Hwf.
    repeat rewrite orb_true_iff in Hwf. repeat rewrite andb_true_iff in Hwf.
    destruct Hwf as [[[[[Hf Hb] Hk]|[Hf Hb]]|[Hf Hb]]|[Hf Hb]];
      apply String.eqb_eq in Hf; apply Z.eqb_eq in Hb; rewrite Hf;
      try rewrite Hb; cbn [String.eqb Ascii.eqb Bool.eqb andb Z.eqb Pos.eqb].
    + rewrite (getitem_in_range report 1) by lia. cbn [rbind].
      destruct (keys o) as [ks|]; [|discriminate Hk]. cbn [rbind].
      unfold byte_at. rewrite bits_of_byte.
      destruct (flags_total ks
                  (map (fun i => Z.testbit (Z.of_N (Byte.to_N (nth 1 report x00)))
                                   (Z.of_nat i)) (seq 0 8)) []) as [d Hd].
      rewrite Hd. eexists; reflexivity.
    + rewrite (getitem_in_range report 1) by lia. eexists; reflexivity.
    + rewrite (getitem_in_range report 2), (getitem_in_range report 1) by lia.
      eexists; reflexivity.
    + rewrite (getitem_in_range report 2), (getitem_in_range report 1) by lia.
      eexists; reflexivity.
  - right. unfold decode_report.
    rewrite (getitem_in_range report 0) by lia. cbn [rbind].
    destruct (Z.eqb_spec (address o) (byte_at report 0)) as [E|E].
    + congruence.
    + reflexivity.
Qed.

(** *** Snapshots of flat tables *)

Lemma snapshot_of_keys (regs : list (string * options))
    (outcome : string -> option pyval) (k : string) :
  In k (map fst (snapshot_of regs outcome)) -> In k (map fst regs).
Proof.
  induction regs as [|[c o] regs IH]; cbn [snapshot_of flat_map map fst].
  - intros [].
  - fold (snapshot_of regs outcome). rewrite map_app, in_app_iff.
    intros [H|H].
    + left. destruct (outcome c); cbn in H; [destruct H as [H|[]]; exact H|
                                             destruct H].
    + right. exact (IH H).
Qed.

(** With distinct category names, a category of the table is in the
    snapshot exactly with the value that [outcome] gives it. *)
Lemma snapshot_of_get (regs : list (string * options))
    (outcome : string -> option pyval) (c : string) :
  NoDup (map fst regs) -> In c (map fst regs) ->
  dict_get (snapshot_of regs outcome) c = outcome c.
Proof.
  induction regs as [|[c0 o] regs IH]; cbn [map fst]; intros Hnd Hin.
  - destruct Hin.
  - inversion Hnd as [|? ? Hnotin Hnd']; subst.
    cbn [snapshot_of flat_map fst]. fold (snapshot_of regs outcome).
    destruct (String.eqb_spec c0 c) as [E|E].
    + subst c0. destruct (outcome c) as [v|] eqn:Hoc; cbn [app dict_get].
      * rewrite String.eqb_refl. reflexivity.
      * apply dict_get_absent. intros H. apply Hnotin.
        exact (snapshot_of_keys _ _ _ H).
    + destruct Hin as [Hin|Hin]; [contradiction|].
      destruct (outcome c0) as [v|]; cbn [app dict_get].
      * destruct (String.eqb_spec c0 c); [contradiction|]. exact (IH Hnd' Hin).
      * exact (IH Hnd' Hin).
Qed.

(** ** Properties of the snapshot builder *)

Section SnapshotProperties.

Variable device : Type.
Variable gfr : device -> Z -> Z -> list byte * device.

(** The body of the inner loop of [get] over the registers of a nested
    category. *)
Local Abbreviation sub_body category :=
  (fun sub : string * options =>
     let (subcategory, o) := sub in
     bind (_read gfr o 3) (fun v => setitem2 category subcategory v)).

Local Abbreviation assign inner items :=
  (fold_left (fun (d : dict) (item : string * pyval) =>
                dict_set d (fst item) (snd item)) items inner).

Lemma with_output_same (s : state device) : with_output (output s) s = s.
Proof. destruct s; reflexivity. Qed.

Lemma reads_ok_with_output (subs : list (string * options)) (out : dict)
    (s s' : state device) (items : list (string * pyval)) :
  reads_ok gfr subs s items s' ->
  reads_ok gfr subs (with_output out s) items (with_output out s').
Proof.
  revert s items; induction subs as [|[k o] subs IH]; intros s items H.
  - destruct H as [-> ->]. split; reflexivity.
  - destruct H as (v & s1 & items' & Hr & Hrest & ->).
    exists v, (with_output out s1), items'. repeat split.
    + rewrite _read_with_output, Hr. reflexivity.
    + apply IH. exact Hrest.
Qed.

Lemma reads_ok_output (subs : list (string * options))
    (s s' : state device) (items : list (string * pyval)) :
  reads_ok gfr subs s items s' -> output s' = output s.
Proof.
  revert s items; induction subs as [|[k o] subs IH]; intros s items H.
  - destruct H as [_ ->]. reflexivity.
  - destruct H as (v & s1 & items' & Hr & Hrest & _).
    rewrite (IH _ _ Hrest).
    pose proof (_read_output _ gfr o 3 s) as Ho. rewrite Hr in Ho. exact Ho.
Qed.

(** The inner loop over registers that can be read: their values are
    assigned under the category and the loop goes on with the rest. *)
Lemma for_each_subs_prefix (category : string)
    (pre rest : list (string * options)) (s s1 : state device)
    (items : list (string * pyval)) (inner : dict) :
  reads_ok gfr pre s items s1 ->
  dict_get (output s) category = Some (PDict inner) ->
  for_each (pre ++ rest) (sub_body category) s =
  for_each rest (sub_body category)
    (with_output (dict_set (output s) category (PDict (assign inner items))) s1).
Proof.
  revert s s1 items inner; induction pre as [|[k o] pre IH];
    intros s s1 items inner H Hget.
  - destruct H as [-> ->]. cbn [app fold_left].
    rewrite (dict_set_get _ _ _ Hget), with_output_same. reflexivity.
  - destruct H as (v & s2 & items' & Hr & Hrest & ->).
    cbn [app for_each fold_left fst snd]. unfold bind at 1. unfold bind at 1.
    rewrite Hr. unfold setitem2.
    pose proof (_read_output _ gfr o 3 s) as Ho. rewrite Hr in Ho. cbn [snd] in Ho.
    rewrite Ho, Hget.
    change (mkState (dict_set (output s) category (PDict (dict_set inner k v)))
              (dev s2) (calls s2))
      with (with_output
              (dict_set (output s) category (PDict (dict_set inner k v))) s2).
    rewrite (IH _ _ items' (dict_set inner k v)
               (reads_ok_with_output pre _ s2 s1 items' Hrest)).
    + cbn [with_output output dev calls]. rewrite dict_set_set. reflexivity.
    + cbn [with_output output]. apply dict_get_set_same.
Qed.

Lemma for_each_app {A} (l1 l2 : list A) (body : A -> M device unit)
    (s s' : state device) :
  for_each l1 body s = (Ok tt, s') ->
  for_each (l1 ++ l2) body s = for_each l2 body s'.
Proof.
  revert s; induction l1 as [|x l1 IH]; intros s H; cbn [app for_each] in *.
  - unfold ret in H. injection H as <-. reflexivity.
  - unfold bind in *. destruct (body x s) as [[[]|e] t].
    + apply IH. exact H.
    + discriminate H.
Qed.


(** What the loop body does for a category that is a single register. *)
Lemma get_category_leaf (category : string) (o : options) (s : state device) :
  get_category gfr (category, Leaf o) s =
  match _read gfr o 3 s with
  | (Ok v, s1) => (Ok tt, with_output (dict_set (output s1) category v) s1)
  | (Raise (IOError _), s1) => (Ok tt, s1)
  | (Raise e, s1) => (Raise e, s1)
  end.
Proof.
  unfold get_category, try_except_IOError, bind.
  destruct (_read gfr o 3 s) as [[v|e] s1]; [reflexivity|].
  destruct e; reflexivity.
Qed.

(** C2 (amended).  For a well-formed register, a non-empty answer that
    starts with the register's address but has fewer than [bytes + 1] bytes
    makes the decoder fail with an [IndexError].  This is not an [IOError],
    the class of the other failures of a read, and the [try] of [get] lets
    it through: the loop body for the register ends with the [IndexError]
    after the single request. *)
Theorem short_report_not_caught (category : string) (o : options)
    (report : list byte) (s : state device) (d' : device) :
  well_formed o = true ->
  gfr (dev s) (address o) (bytes o + 1) = (report, d') ->
  (1 <= List.length report)%nat ->
  byte_at report 0 = address o ->
  Z.of_nat (List.length report) < bytes o + 1 ->
  decode_report o report = Raise IndexError
  /\ is_IOError IndexError = false
  /\ get_category gfr (category, Leaf o) s =
     (Raise IndexError, mkState (output s) d' (calls s ++ [request o])).
Proof.
  intros Hwf Hg Hlen Haddr Hshort.
  pose proof (decode_report_short o report Hwf Hlen Haddr Hshort) as Hdec.
  split; [exact Hdec|]. split; [reflexivity|].
  rewrite get_category_leaf, _read_eq, Hg.
  destruct report as [|b rest]; [cbn in Hlen; lia|].
  cbn zeta. rewrite Hdec. reflexivity.
Qed.

Lemma for_each_flat (regs : list (string * options))
    (outcome : string -> option pyval) (s : state device) :
  NoDup (map fst regs) ->
  (forall k, In k (map fst regs) -> ~ In k (map fst (output s))) ->
  (forall c o s0, In (c, o) regs ->
     match outcome c with
     | Some v => fst (_read gfr o 3 s0) = Ok v
     | None => exists m, fst (_read gfr o 3 s0) = Raise (IOError m)
     end) ->
  exists s',
    for_each (flat_table regs) (get_category gfr) s = (Ok tt, s')
    /\ output s' = output s ++ snapshot_of regs outcome.
Proof.
  revert s; induction regs as [|[c o] regs IH]; intros s Hnd Hfresh Hread.
  - exists s. split; [reflexivity|]. cbn. rewrite app_nil_r. reflexivity.
  - cbn [map fst] in Hnd, Hfresh.
    inversion Hnd as [|? ? Hnotin Hnd']; subst.
    assert (Hread' : forall c' o' s0, In (c', o') regs ->
              match outcome c' with
              | Some v => fst (_read gfr o' 3 s0) = Ok v
              | None => exists m, fst (_read gfr o' 3 s0) = Raise (IOError m)
              end)
      by (intros c' o' s0 Hin; apply Hread; right; exact Hin).
    pose proof (Hread c o s (or_introl eq_refl)) as Hc.
    pose proof (_read_output _ gfr o 3 s) as Hout.
    cbn [flat_table map for_each fst snd]. fold (flat_table regs).
    unfold bind. rewrite get_category_leaf.
    cbn [snapshot_of flat_map fst]. fold (snapshot_of regs outcome).
    destruct (_read gfr o 3 s) as [r s1]. cbn [fst snd] in Hc, Hout.
    destruct (outcome c) as [v|].
    + subst r.
      destruct (IH (with_output (dict_set (output s1) c v) s1) Hnd')
        as (s' & Hrun & Hs'); [|exact Hread'|].
      * intros k Hk. cbn [with_output output]. rewrite Hout.
        rewrite dict_set_fresh by (apply Hfresh; left; reflexivity).
        rewrite map_app, in_app_iff. cbn [map fst In].
        intros [H|[H|[]]].
        -- exact (Hfresh k (or_intror Hk) H).
        -- subst k. exact (Hnotin Hk).
      * exists s'. split; [exact Hrun|]. rewrite Hs'.
        cbn [with_output output]. rewrite Hout.
        rewrite dict_set_fresh by (apply Hfresh; left; reflexivity).
        rewrite <- app_assoc. reflexivity.
    + destruct Hc as [m Hm]. subst r.
      destruct (IH s1 Hnd') as (s' & Hrun & Hs'); [|exact Hread'|].
      * intros k Hk. rewrite Hout. apply Hfresh. right. exact Hk.
      * exists s'. split; [exact Hrun|]. rewrite Hs', Hout. reflexivity.
Qed.

(** C8.  Over a table of single-register categories with distinct names,
    when the read of each category either always succeeds with a value or
    always fails with an [IOError] (as [outcome] tells), the snapshot holds
    exactly the categories that succeed, in the order of the table and with
    their values: a category that succeeds is a key with its value, and a
    category that fails is not a key at all. *)
Theorem get_flat_partial_failure (regs : list (string * options))
    (outcome : string -> option pyval) (s : state device) :
  NoDup (map fst regs) ->
  (forall c o s0, In (c, o) regs ->
     match outcome c with
     | Some v => fst (_read gfr o 3 s0) = Ok v
     | None => exists m, fst (_read gfr o 3 s0) = Raise (IOError m)
     end) ->
  fst (get gfr (flat_table regs) s) = Ok (snapshot_of regs outcome)
  /\ (forall c, In c (map fst regs) ->
        dict_get (snapshot_of regs outcome) c = outcome c).
Proof.
  intros Hnd Hread. split.
  - unfold get. unfold bind at 1. unfold set_output at 1. unfold bind at 1.
    destruct (for_each_flat regs outcome (mkState [] (dev s) (calls s)) Hnd)
      as (s' & Hrun & Hs'); [intros k _ []|exact Hread|].
    rewrite Hrun. unfold get_output. cbn [fst]. rewrite Hs'. reflexivity.
  - intros c Hc. apply snapshot_of_get; assumption.
Qed.

Section Deterministic.

(** The device gives the same answer to the same request on every call. *)
Variable answer : Z -> Z -> list byte.
Hypothesis deterministic : forall d a n, fst (gfr d a n) = answer a n.

Lemma _read_deterministic (o : options) (retries : nat)
    (s1 s2 : state device) :
  fst (_read gfr o retries s1) = fst (_read gfr o retries s2).
Proof.
  revert s1 s2; induction retries as [|r IH]; intros s1 s2;
    rewrite (_read_eq _ gfr o _ s1), (_read_eq _ gfr o _ s2);
    pose proof (deterministic (dev s1) (address o) (bytes o + 1)) as H1;
    pose proof (deterministic (dev s2) (address o) (bytes o + 1)) as H2;
    destruct (gfr (dev s1) (address o) (bytes o + 1)) as [r1 d1];
    destruct (gfr (dev s2) (address o) (bytes o + 1)) as [r2 d2];
    cbn [fst] in H1, H2; subst r1 r2; cbn zeta;
    destruct (answer (address o) (bytes o + 1)); try reflexivity.
  apply IH.
Qed.

Lemma determined_read (o : options) (retries : nat) :
  output_determined (_read gfr o retries).
Proof.
  intros s1 s2 Hout. split.
  - apply _read_deterministic.
  - rewrite !_read_output. exact Hout.
Qed.

Lemma determined_bind {A B} (m : M device A) (k : A -> M device B) :
  output_determined m -> (forall a, output_determined (k a)) ->
  output_determined (bind m k).
Proof.
  intros Hm Hk s1 s2 Hout. unfold bind.
  destruct (Hm s1 s2 Hout) as [Hr Ho].
  destruct (m s1) as [[a1|e1] t1], (m s2) as [[a2|e2] t2];
    cbn [fst snd] in Hr, Ho; try discriminate Hr.
  - injection Hr as ->. apply Hk. exact Ho.
  - injection Hr as ->. split; [reflexivity|exact Ho].
Qed.

Lemma determined_setitem (k : string) (v : pyval) :
  output_determined (setitem (device := device) k v).
Proof.
  intros s1 s2 Hout. unfold setitem. cbn [fst snd output].
  rewrite Hout. split; reflexivity.
Qed.

Lemma determined_setitem2 (k1 k2 : string) (v : pyval) :
  output_determined (setitem2 (device := device) k1 k2 v).
Proof.
  intros s1 s2 Hout. unfold setitem2. rewrite Hout.
  destruct (dict_get (output s2) k1) as [[| | | |inner]|];
    cbn [fst snd output]; split; try reflexivity; exact Hout.
Qed.

Lemma determined_try (body handler : M device unit) :
  output_determined body -> output_determined handler ->
  output_determined (try_except_IOError body handler).
Proof.
  intros Hb Hh s1 s2 Hout. unfold try_except_IOError.
  destruct (Hb s1 s2 Hout) as [Hr Ho].
  destruct (body s1) as [[a1|e1] t1], (body s2) as [[a2|e2] t2];
    cbn [fst snd] in Hr, Ho; try discriminate Hr.
  - split; [exact Hr|exact Ho].
  - injection Hr as ->. destruct e2; try (split; [reflexivity|exact Ho]).
    apply Hh. exact Ho.
Qed.

Lemma determined_for_each {A} (l : list A) (body : A -> M device unit) :
  (forall x, output_determined (body x)) ->
  output_determined (for_each l body).
Proof.
  intros Hbody. induction l as [|x l IH]; cbn [for_each].
  - intros s1 s2 Hout. split; [reflexivity|exact Hout].
  - apply determined_bind; [apply Hbody|intros _; exact IH].
Qed.

Lemma determined_get_category (item : string * data) :
  output_determined (get_category gfr item).
Proof.
  destruct item as [category [o|subs]]; unfold get_category;
    apply determined_try;
    try (intros s1 s2 Hout; split; [reflexivity|exact Hout]).
  - apply determined_bind; [apply determined_read|].
    intros v. apply determined_setitem.
  - apply determined_bind; [apply determined_setitem|]. intros _.
    apply determined_for_each. intros [k o].
    apply determined_bind; [apply determined_read|].
    intros v. apply determined_setitem2.
Qed.

(** C9.  When the device answers the same request with the same bytes on
    every call, a second call of [get], run in the state the first call
    left, produces the same output as the first: [get] starts from an empty
    [output] each time, and nothing else that it builds is carried over from
    one call to the next. *)
Theorem get_idempotent (table : list (string * data)) (s : state device) :
  fst (get gfr table (snd (get gfr table s))) = fst (get gfr table s).
Proof.
  generalize (snd (get gfr table s)) as s'. intros s'.
  unfold get. unfold bind at 1. unfold bind at 3.
  unfold set_output.
  pose proof (determined_for_each table (get_category gfr)
                determined_get_category
                (mkState [] (dev s') (calls s'))
                (mkState [] (dev s) (calls s)) eq_refl) as [Hr Ho].
  unfold bind.
  destruct (for_each table (get_category gfr) (mkState [] (dev s') (calls s')))
    as [[a1|e1] t1],
    (for_each table (get_category gfr) (mkState [] (dev s) (calls s)))
    as [[a2|e2] t2]; cbn [fst snd] in Hr, Ho; try discriminate Hr.
  - unfold get_output. cbn [fst]. rewrite Ho. reflexivity.
  - injection Hr as ->. reflexivity.
Qed.

End Deterministic.

End SnapshotProperties.

(** ** The statements at concrete devices and reports *)

Lemma status_keys_NoDup : NoDup status_keys.
Proof.
  unfold status_keys.
  repeat (constructor; [cbn [In]; intuition discriminate|]). constructor.
Qed.

Lemma letters_NoDup : NoDup letters.
Proof.
  unfold letters.
  repeat (constructor; [cbn [In]; intuition discriminate|]). constructor.
Qed.

(** Three empty answers and then a frame: the value is read with four
    requests; no answer at all: the read gives up after four requests. *)
Lemma read_retry_bound_witness :
  _read scripted_device (int1 48) 3 (start [[]; []; []; [x30; x05]]) =
    (Ok (PInt 5), mkState [] [] (repeat (48, 2) 4))
  /\ _read scripted_device (int1 48) 3 (start []) =
       (Raise (IOError "Did not receive data."),
        mkState [] [] (repeat (48, 2) 4)).
Proof.
  split.
  - destruct (read_retry_bound _ scripted_device (int1 48)
                (start [[]; []; []; [x30; x05]])) as [_ H].
    apply (H 3%nat [[x30; x05]] [] [x30; x05] (PInt 5)).
    + lia.
    + cbn. repeat (eexists; split; [reflexivity|]). reflexivity.
    + reflexivity.
    + reflexivity.
  - destruct (read_retry_bound _ scripted_device (int1 48) (start []))
      as [H _].
    apply (H []).
    cbn. repeat (eexists; split; [reflexivity|]). reflexivity.
Defined.

Lemma read_framing_mismatch_witness :
  _read (fixed_device (fun _ _ => [x31; x05])) (int1 48) 3 (start tt) =
  (Raise (IOError "Received unexpected data."), mkState [] tt [(48, 2)]).
Proof.
  apply (read_framing_mismatch _ (fixed_device (fun _ _ => [x31; x05]))
           (int1 48) 3 (start tt) x31 [x05] tt).
  - reflexivity.
  - cbn. lia.
Defined.

Lemma decode_integers_and_float_witness :
  decode_report (int2 71) [x47; x03; x01] = Ok (PInt 259)
  /\ decode_report (float2 24) [x18; xb0; x04] = Ok (PFloat 120%float).
Proof.
  split.
  - destruct (decode_integers_and_float (int2 71) [x47; x03; x01])
      as (_ & H & _).
    + cbn. lia.
    + reflexivity.
    + destruct (H eq_refl eq_refl) as [E _]. exact E.
  - destruct (decode_integers_and_float (float2 24) [x18; xb0; x04])
      as (_ & _ & H & _).
    + cbn. lia.
    + reflexivity.
    + destruct (H eq_refl eq_refl) as [E _]. exact E.
Defined.

Lemma decode_bitfield_witness :
  exists d,
    decode_report (mkOptions 50 1 "b" (Some status_keys)) [x32; x06]
    = Ok (PDict d)
    /\ dict_get d "shutdown imminent" = Some (PBool false)
    /\ dict_get d "charging" = Some (PBool true).
Proof.
  destruct (decode_bitfield (mkOptions 50 1 "b" (Some status_keys))
              status_keys [x32; x06] eq_refl eq_refl status_keys_NoDup)
    as (d & Hd & _ & Hget & _).
  - cbn. lia.
  - reflexivity.
  - exists d. split; [exact Hd|]. split.
    + exact (Hget 0%nat "shutdown imminent"%string ltac:(lia) eq_refl).
    + exact (Hget 2%nat "charging"%string ltac:(lia) eq_refl).
Defined.

Lemma decode_bitfield_size_witness :
  exists d,
    decode_report (mkOptions 50 1 "b" (Some letters)) [x32; xff]
    = Ok (PDict d)
    /\ List.length d = 8%nat
    /\ dict_get d "i" = None.
Proof.
  destruct (decode_bitfield_size (mkOptions 50 1 "b" (Some letters))
              letters [x32; xff] eq_refl eq_refl letters_NoDup)
    as (d & Hd & Hlen & Hget & _).
  - cbn. lia.
  - reflexivity.
  - exists d. split; [exact Hd|]. split.
    + exact Hlen.
    + exact (Hget 8%nat "i"%string ltac:(lia) eq_refl).
Defined.

Lemma short_report_not_caught_witness :
  get_category (fixed_device address_only) ("health"%string, Leaf (int1 52))
    (start tt)
  = (Raise IndexError, mkState [] tt [(52, 2)]).
Proof.
  destruct (short_report_not_caught _ (fixed_device address_only)
              "health" (int1 52) [x34] (start tt) tt)
    as (_ & _ & H).
  - reflexivity.
  - reflexivity.
  - cbn. lia.
  - reflexivity.
  - cbn. lia.
  - exact H.
Defined.


Lemma get_flat_partial_failure_witness :
  fst (get (fixed_device no_frequency) (flat_table abc_registers) (start tt))
  = Ok [("a"%string, PInt 5); ("c"%string, PInt 5)].
Proof.
  destruct (get_flat_partial_failure _ (fixed_device no_frequency)
              abc_registers abc_outcome (start tt)) as [H _].
  - repeat (constructor; [cbn [In]; intuition discriminate|]). constructor.
  - intros c o s0 [E|[E|[E|[]]]]; injection E as <- <-; cbn.
    + reflexivity.
    + exists "Did not receive data."%string. reflexivity.
    + reflexivity.
  - exact H.
Defined.

Lemma get_idempotent_witness :
  fst (get (counting_device no_frequency) structure
         (snd (get (counting_device no_frequency) structure (start 0%nat))))
  = fst (get (counting_device no_frequency) structure (start 0%nat)).
Proof.
  apply (get_idempotent _ (counting_device no_frequency) no_frequency).
  intros d a n. reflexivity.
Defined.

(** ** Where the code departs from the specification *)


(** C2, as stated, fails.  The one-byte report [0x34] for the register
    [health] (address 52, one payload byte) is not empty, is shorter than two
    bytes and starts with the address; decoding it raises [IndexError], which
    is not an [IOError], and [get] over a table with this register ends with
    that error instead of a snapshot. *)
Lemma short_report_counterexample :
  let o := int1 52 in
  let report := [x34] in
  report <> []
  /\ Z.of_nat (List.length report) < bytes o + 1
  /\ byte_at report 0 = address o
  /\ decode_report o report = Raise IndexError
  /\ is_IOError IndexError = false
  /\ fst (get (fixed_device (fun _ _ => report))
            [("health"%string, Leaf o)] (start tt))
     = Raise IndexError.
Proof.
  cbv zeta. repeat split; try reflexivity.
  - discriminate.
Qed.


(** C6, as stated, fails.  With nine flag names the ninth gets no boolean,
    whatever the payload; and with a flag name declared twice, the payload
    0b00000001 has bit 0 set while the name at position 0 is mapped to
    false. *)
Lemma bitfield_counterexample :
  (nth_error letters 8 = Some "i"%string
   /\ exists d,
        decode_report (mkOptions 50 1 "b" (Some letters)) [x32; xff]
        = Ok (PDict d)
        /\ dict_get d "i" = None)
  /\ (Z.testbit (byte_at [x32; x01] 1) 0 = true
      /\ decode_report (mkOptions 50 1 "b" (Some ["a"; "a"]%string)) [x32; x01]
         = Ok (PDict [("a"%string, PBool false)])).
Proof.
  split; split; try reflexivity.
  eexists. split; [vm_compute; reflexivity|reflexivity].
Qed.

(** C10, as stated, fails.  With the flag name [a] declared twice the
    decoded mapping has one entry, not min(2, 8) = 2; and when the ninth
    declared name repeats the first, it is a key of the result. *)
Lemma bitfield_size_counterexample :
  (exists d,
      decode_report (mkOptions 50 1 "b" (Some ["a"; "a"]%string)) [x32; x03]
      = Ok (PDict d)
      /\ List.length d = 1%nat
      /\ Nat.min (List.length ["a"; "a"]%string) 8 = 2%nat)
  /\ (exists d,
        decode_report
          (mkOptions 50 1 "b"
             (Some ["a"; "b"; "c"; "d"; "e"; "f"; "g"; "h"; "a"]%string))
          [x32; x00]
        = Ok (PDict d)
        /\ dict_get d "a" = Some (PBool false)).
Proof.
  split; eexists; (split; [vm_compute; reflexivity|]); repeat split.
Qed.

(** * Further properties of the driver *)

(** ** Vocabulary *)

(** The formats, with their payload widths, for which [_read] has a
    decoder. *)
Definition known_format (o : options) : bool :=
  String.eqb (format o) "b"
  || (String.eqb (format o) "i" && ((bytes o =? 2) || (bytes o =? 1)))
  || String.eqb (format o) "f".

(** Register by register, as many copies of the register's request as
    [counts] says. *)
Definition request_blocks (regs : list options) (counts : list nat)
    : list (Z * Z) :=
  List.concat (map (fun p => repeat (request (fst p)) (snd p))
                   (combine regs counts)).

(** The requests [l] are, register by register in the order of [regs], at
    most four copies of that register's request. *)
Definition requests_within (regs : list options) (l : list (Z * Z)) : Prop :=
  exists counts,
    List.length counts = List.length regs
    /\ Forall (fun k => (k <= 4)%nat) counts
    /\ l = request_blocks regs counts.

(** ** Failures of the decoder *)

Lemma getitem_raise (report : list byte) (i : nat) (e : exn) :
  getitem report i = Raise e -> e = IndexError.
Proof.
  unfold getitem. destruct (nth_error report i); intros H;
    [discriminate H|injection H as <-; reflexivity].
Qed.

Lemma getitem_byte (report : list byte) (i : nat) (z : Z) :
  getitem report i = Ok z -> exists b, z = Z.of_N (Byte.to_N b).
Proof.
  unfold getitem. destruct (nth_error report i) as [b|]; intros H;
    [injection H as <-; exists b; reflexivity|discriminate H].
Qed.

(** The flags of a payload byte can always be built. *)
Lemma flags_of_byte_total (ks : list string) (b : byte) :
  exists d,
    flags (combine ks (rev (format_08b (Z.of_N (Byte.to_N b))))) [] = Ok d.
Proof. rewrite bits_of_byte. apply flags_total. Qed.

(** The decoder fails in three ways only: the address check, an index past
    the end of the report, and a bit field without flag names. *)
Lemma decode_report_raises (o : options) (report : list byte) (e : exn) :
  decode_report o report = Raise e ->
  e = IOError "Received unexpected data." \/ e = IndexError
  \/ e = KeyError "keys".
Proof.
  unfold decode_report.
  destruct (getitem report 0) as [r0|e0] eqn:H0; cbn [rbind];
    [|intros H; injection H as <-; right; left;
      exact (getitem_raise _ _ _ H0)].
  destruct (negb (address o =? r0));
    [intros H; injection H as <-; left; reflexivity|].
  destruct (getitem report 1) as [r1|e1] eqn:H1;
    destruct (getitem report 2) as [r2|e2] eqn:H2;
    try (apply getitem_raise in H1; subst e1);
    try (apply getitem_raise in H2; subst e2);
    destruct (String.eqb (format o) "b");
    destruct (String.eqb (format o) "i");
    destruct (bytes o =? 2); destruct (bytes o =? 1);
    destruct (String.eqb (format o) "f");
    cbn [rbind andb]; intros H; try discriminate H;
    try (injection H as <-; right; left; reflexivity);
    (destruct (keys o) as [ks|]; cbn [rbind] in H;
     [|injection H as <-; right; right; reflexivity]);
    destruct (getitem_byte _ _ _ H1) as [b ->];
    destruct (flags_of_byte_total ks b) as [d Hd];
    rewrite Hd in H; discriminate H.
Qed.

(** ** The requests of a read *)

Section ReadRequests.

Variable device : Type.
Variable gfr : device -> Z -> Z -> list byte * device.

(** A read fails in four ways only. *)
Lemma _read_raises (o : options) (retries : nat) (s : state device) (e : exn) :
  fst (_read gfr o retries s) = Raise e ->
  e = IOError "Did not receive data."
  \/ e = IOError "Received unexpected data."
  \/ e = IndexError \/ e = KeyError "keys".
Proof.
  revert s; induction retries as [|r IH]; intros s; rewrite _read_eq;
    destruct (gfr (dev s) (address o) (bytes o + 1)) as [report d'];
    cbn zeta; (destruct report as [|b rest]; cbn [fst];
               [|intros H; right; exact (decode_report_raises _ _ _ H)]).
  - intros H; injection H as <-. left. reflexivity.
  - apply IH.
Qed.

Lemma decode_report_not_no_data (o : options) (report : list byte) :
  decode_report o report <> Raise (IOError "Did not receive data.").
Proof.
  intros H. destruct (decode_report_raises _ _ _ H) as [E|[E|E]];
    discriminate E.
Qed.

(** The requests of one read: the same request, at least once and at most
    once more than there are retries, and as often as that when the read
    gives up for want of data. *)
Lemma _read_calls (o : options) (retries : nat) (s : state device) :
  exists k,
    (1 <= k <= S retries)%nat
    /\ calls (snd (_read gfr o retries s)) = calls s ++ repeat (request o) k
    /\ (fst (_read gfr o retries s) = Raise (IOError "Did not receive data.")
        -> k = S retries).
Proof.
  revert s; induction retries as [|r IH]; intros s; rewrite _read_eq;
    destruct (gfr (dev s) (address o) (bytes o + 1)) as [report d'];
    cbn zeta; destruct report as [|b rest]; cbn [fst snd calls].
  - exists 1%nat. repeat split; lia.
  - exists 1%nat. split; [lia|]. split; [reflexivity|].
    intros H. destruct (decode_report_not_no_data _ _ H).
  - destruct (IH (mkState (output s) d' (calls s ++ [request o])))
      as (k & Hk & Hc & Hn).
    exists (S k). split; [lia|]. split.
    + rewrite Hc. cbn [calls repeat]. rewrite <- app_assoc. reflexivity.
    + intros H. rewrite (Hn H). reflexivity.
  - exists 1%nat. split; [lia|]. split; [reflexivity|].
    intros H. destruct (decode_report_not_no_data _ _ H).
Qed.

(** X1.  Whatever the device answers, a read sends its one request
    [(address, bytes + 1)] at least once and at most [retries + 1] times
    (four times from [get]) and no other request; it gives up for want of
    data only after all [retries + 1] requests; and it leaves [output] as it
    was. *)
Theorem read_request_bound (o : options) (retries : nat) (s : state device) :
  exists k,
    (1 <= k <= S retries)%nat
    /\ calls (snd (_read gfr o retries s)) = calls s ++ repeat (request o) k
    /\ (fst (_read gfr o retries s) = Raise (IOError "Did not receive data.")
        -> k = S retries)
    /\ output (snd (_read gfr o retries s)) = output s.
Proof.
  destruct (_read_calls o retries s) as (k & Hk & Hc & Hn).
  exists k. repeat split; try lia; try assumption.
  apply _read_output.
Qed.

(** X2.  A read that does not end for want of data is not changed by more
    retries: it gives the same result, leaves the same state and sends the
    same requests. *)
Theorem read_more_retries (o : options) (retries extra : nat)
    (s : state device) :
  fst (_read gfr o retries s) <> Raise (IOError "Did not receive data.") ->
  _read gfr o (retries + extra) s = _read gfr o retries s.
Proof.
  revert s; induction retries as [|r IH]; intros s;
    rewrite (_read_eq _ gfr o _ s), (_read_eq _ gfr o (_ + extra) s);
    destruct (gfr (dev s) (address o) (bytes o + 1)) as [report d'];
    cbn zeta; destruct report as [|b rest]; cbn [fst Nat.add];
    intros H; try reflexivity.
  - exfalso. apply H. reflexivity.
  - apply IH. exact H.
Qed.

End ReadRequests.

(** ** What a snapshot can hold and what it costs *)

Lemma dict_set_keys (d : dict) (k : string) (v : pyval) (x : string) :
  In x (map fst (dict_set d k v)) -> x = k \/ In x (map fst d).
Proof.
  induction d as [|[k' v'] d IH]; cbn [dict_set map fst In].
  - intros [H|[]]. left. symmetry. exact H.
  - destruct (String.eqb_spec k' k) as [E|E]; cbn [map fst In].
    + intros [H|H]; right; [left|right]; assumption.
    + intros [H|H]; [right; left; exact H|].
      destruct (IH H) as [H'|H']; [left|right; right]; assumption.
Qed.

Lemma dict_get_set_other (d : dict) (k c : string) (v : pyval) :
  k <> c -> dict_get (dict_set d k v) c = dict_get d c.
Proof.
  intros Hkc. induction d as [|[k' v'] d IH]; cbn [dict_set dict_get].
  - destruct (String.eqb_spec k c); [contradiction|reflexivity].
  - destruct (String.eqb_spec k' k) as [E|E]; cbn [dict_get].
    + subst k'. destruct (String.eqb_spec k c); [contradiction|reflexivity].
    + rewrite IH. reflexivity.
Qed.

Lemma requests_within_nil (regs : list options) : requests_within regs [].
Proof.
  exists (repeat 0%nat (List.length regs)). split; [apply repeat_length|].
  split.
  - apply Forall_forall. intros k Hk. apply repeat_spec in Hk. lia.
  - unfold request_blocks. induction regs as [|o regs IH]; [reflexivity|].
    cbn [List.length repeat combine map List.concat fst snd app]. exact IH.
Qed.

Lemma request_blocks_app (r1 r2 : list options) (c1 c2 : list nat) :
  List.length c1 = List.length r1 ->
  request_blocks (r1 ++ r2) (c1 ++ c2)
  = request_blocks r1 c1 ++ request_blocks r2 c2.
Proof.
  unfold request_blocks. revert c1; induction r1 as [|o r1 IH];
    intros [|k c1] Hlen; try discriminate Hlen.
  - reflexivity.
  - cbn [app combine map List.concat fst snd].
    rewrite IH by (cbn in Hlen; lia).
    apply app_assoc.
Qed.

Lemma requests_within_app (r1 r2 : list options) (l1 l2 : list (Z * Z)) :
  requests_within r1 l1 -> requests_within r2 l2 ->
  requests_within (r1 ++ r2) (l1 ++ l2).
Proof.
  intros (c1 & L1 & F1 & ->) (c2 & L2 & F2 & ->).
  exists (c1 ++ c2). split; [rewrite !length_app; lia|]. split.
  - apply Forall_app. split; assumption.
  - symmetry. apply request_blocks_app. exact L1.
Qed.

Lemma requests_within_repeat (o : options) (k : nat) :
  (k <= 4)%nat -> requests_within [o] (repeat (request o) k).
Proof.
  intros Hk. exists [k]. split; [reflexivity|]. split.
  - constructor; [exact Hk|constructor].
  - unfold request_blocks. cbn. rewrite app_nil_r. reflexivity.
Qed.

Section SnapshotInvariants.

Variable device : Type.
Variable gfr : device -> Z -> Z -> list byte * device.

Local Abbreviation sub_body category :=
  (fun sub : string * options =>
     let (subcategory, o) := sub in
     bind (_read gfr o 3) (fun v => setitem2 category subcategory v)).

(** The inner loop of [get] over the registers of a nested category, from a
    state in which the category holds a dictionary. *)
Lemma for_each_subs_spec (category : string)
    (subs : list (string * options)) (s : state device) (inner : dict) :
  dict_get (output s) category = Some (PDict inner) ->
  (exists inner',
      output (snd (for_each subs (sub_body category) s)) =
      dict_set (output s) category (PDict inner')
      /\ forall k, In k (map fst inner') ->
                   In k (map fst inner) \/ In k (map fst subs))
  /\ (forall e, fst (for_each subs (sub_body category) s) = Raise e ->
        (exists m, e = IOError m) \/ e = IndexError \/ e = KeyError "keys")
  /\ (exists l,
        calls (snd (for_each subs (sub_body category) s)) = calls s ++ l
        /\ requests_within (map snd subs) l).
Proof.
  revert s inner; induction subs as [|[k o] subs IH]; intros s inner Hget.
  - cbn [for_each ret fst snd]. split; [|split].
    + exists inner. split; [|intros x Hx; left; exact Hx].
      symmetry. apply dict_set_get. exact Hget.
    + intros e H. discriminate H.
    + exists []. split; [rewrite app_nil_r; reflexivity|].
      apply requests_within_nil.
  - pose proof (_read_output _ gfr o 3 s) as Hout.
    pose proof (_read_raises _ gfr o 3 s) as Hraise.
    destruct (_read_calls _ gfr o 3 s) as (n & Hn & Hcalls & _).
    destruct (_read gfr o 3 s) as [[v|e] s1] eqn:Hr; cbn [fst snd] in *.
    + assert (E : for_each ((k, o) :: subs) (sub_body category) s =
                  for_each subs (sub_body category)
                    (with_output
                       (dict_set (output s1) category
                          (PDict (dict_set inner k v))) s1)).
      { cbn [for_each]. unfold bind at 1. unfold bind at 1. rewrite Hr.
        unfold setitem2 at 1. rewrite Hout, Hget. reflexivity. }
      rewrite E.
      destruct (IH (with_output
                      (dict_set (output s1) category
                         (PDict (dict_set inner k v))) s1)
                  (dict_set inner k v)) as ((inner' & Ho & Hk) & He & (l & Hl & Hw)).
      { cbn [with_output output]. apply dict_get_set_same. }
      split; [|split].
      * exists inner'. split.
        -- rewrite Ho. cbn [with_output output]. rewrite Hout.
           apply dict_set_set.
        -- intros x Hx. cbn [map fst In].
           destruct (Hk x Hx) as [H|H]; [|right; right; exact H].
           destruct (dict_set_keys _ _ _ _ H) as [H'|H'];
             [right; left; symmetry; exact H'|left; exact H'].
      * exact He.
      * exists (repeat (request o) n ++ l). split.
        -- rewrite Hl. cbn [with_output calls]. rewrite Hcalls.
           rewrite <- app_assoc. reflexivity.
        -- cbn [map snd].
           apply (requests_within_app [o] (map snd subs));
             [apply requests_within_repeat; lia|exact Hw].
    + assert (E : for_each ((k, o) :: subs) (sub_body category) s =
                  (Raise e, s1)).
      { cbn [for_each]. unfold bind at 1. unfold bind at 1. rewrite Hr.
        reflexivity. }
      rewrite E. cbn [fst snd]. split; [|split].
      * exists inner. split; [|intros x Hx; left; exact Hx].
        rewrite Hout. symmetry. apply dict_set_get. exact Hget.
      * intros e' H. injection H as <-.
        destruct (Hraise e eq_refl) as [H|[H|H]];
          [left; eexists; exact H|left; eexists; exact H|right; exact H].
      * exists (repeat (request o) n). split; [exact Hcalls|].
        cbn [map snd].
        pose proof (requests_within_app [o] (map snd subs) _ []
                      (requests_within_repeat o n ltac:(lia))
                      (requests_within_nil _)) as Hw.
        rewrite app_nil_r in Hw. exact Hw.
Qed.

(** The body of the loop of [get] for one item, from any state: what it can
    raise, what it does to [output] and what it asks of the device. *)
Lemma get_category_spec (item : string * data) (s : state device) :
  (forall e, fst (get_category gfr item s) = Raise e ->
     e = IndexError \/ e = KeyError "keys")
  /\ (forall k, In k (map fst (output (snd (get_category gfr item s)))) ->
        k = fst item \/ In k (map fst (output s)))
  /\ (forall k, k <> fst item ->
        dict_get (output (snd (get_category gfr item s))) k
        = dict_get (output s) k)
  /\ (forall subs, snd item = Branch subs ->
        exists inner,
          dict_get (output (snd (get_category gfr item s))) (fst item)
          = Some (PDict inner)
          /\ forall k, In k (map fst inner) -> In k (map fst subs))
  /\ (exists l,
        calls (snd (get_category gfr item s)) = calls s ++ l
        /\ requests_within (registers [item]) l).
Proof.
  destruct item as [category [o|subs]]; cbn [fst snd].
  - rewrite get_category_leaf.
    pose proof (_read_output _ gfr o 3 s) as Hout.
    pose proof (_read_raises _ gfr o 3 s) as Hraise.
    destruct (_read_calls _ gfr o 3 s) as (n & Hn & Hcalls & _).
    assert (Hw : requests_within (registers [(category, Leaf o)])
                   (repeat (request o) n))
      by (apply requests_within_repeat; lia).
    destruct (_read gfr o 3 s) as [[v|e] s1]; cbn [fst snd] in *.
    + repeat split.
      * intros e H. discriminate H.
      * intros k Hk. cbn [with_output output] in Hk. rewrite Hout in Hk.
        exact (dict_set_keys _ _ _ _ Hk).
      * intros k Hk. cbn [with_output output]. rewrite Hout.
        apply dict_get_set_other. congruence.
      * intros subs H. discriminate H.
      * exists (repeat (request o) n). split; [exact Hcalls|exact Hw].
    + assert (Hsame :
        (forall k, In k (map fst (output s1)) ->
           k = category \/ In k (map fst (output s)))
        /\ (forall k, k <> category ->
              dict_get (output s1) k = dict_get (output s) k)
        /\ (exists l, calls s1 = calls s ++ l
              /\ requests_within (registers [(category, Leaf o)]) l)).
      { rewrite Hout. split; [intros k Hk; right; exact Hk|].
        split; [reflexivity|].
        exists (repeat (request o) n). split; [exact Hcalls|exact Hw]. }
      destruct Hsame as (H2 & H3 & H5).
      destruct (Hraise e eq_refl) as [E|[E|[E|E]]]; subst e; cbn [fst snd];
        repeat split; try assumption;
        try (intros e H; discriminate H);
        try (intros subs H; discriminate H).
      * intros e H. injection H as <-. left. reflexivity.
      * intros e H. injection H as <-. right. reflexivity.
  - assert (Hgc :
      get_category gfr (category, Branch subs) s =
      try_except_IOError (for_each subs (sub_body category)) (ret tt)
        (with_output (dict_set (output s) category (PDict [])) s))
      by reflexivity.
    rewrite Hgc. clear Hgc. unfold try_except_IOError, ret.
    destruct (for_each_subs_spec category subs
                (with_output (dict_set (output s) category (PDict [])) s) []
                (dict_get_set_same _ _ _))
      as ((inner & Ho & Hk) & He & (l & Hl & Hw)).
    cbn [with_output output calls] in Ho, Hl. rewrite dict_set_set in Ho.
    assert (Hreg : registers [(category, Branch subs)] = map snd subs)
      by (cbn; apply app_nil_r).
    rewrite Hreg.
    assert (Hsnd :
      forall s' : state device,
        output s' = dict_set (output s) category (PDict inner) ->
        calls s' = calls s ++ l ->
        (forall k, In k (map fst (output s')) ->
           k = category \/ In k (map fst (output s)))
        /\ (forall k, k <> category ->
              dict_get (output s') k = dict_get (output s) k)
        /\ (forall subs', Branch subs = Branch subs' ->
              exists inner',
                dict_get (output s') category = Some (PDict inner')
                /\ forall k, In k (map fst inner') -> In k (map fst subs'))
        /\ (exists l', calls s' = calls s ++ l'
              /\ requests_within (map snd subs) l')).
    { intros s' Hs' Hc'. rewrite Hs'. repeat split.
      - intros k H. exact (dict_set_keys _ _ _ _ H).
      - intros k H. apply dict_get_set_other. congruence.
      - intros subs' E. injection E as <-. exists inner.
        split; [apply dict_get_set_same|].
        intros k H. destruct (Hk k H) as [[]|H']. exact H'.
      - exists l. split; [exact Hc'|exact Hw]. }
    destruct (for_each subs (sub_body category)
                (with_output (dict_set (output s) category (PDict [])) s))
      as [[[]|e] s'] eqn:Hf; cbn [fst snd] in *.
    + split; [intros e H; discriminate H|]. exact (Hsnd s' Ho Hl).
    + destruct (He e eq_refl) as [[m E]|[E|E]]; subst e; cbn [fst snd].
      * split; [intros e H; discriminate H|]. exact (Hsnd s' Ho Hl).
      * split; [intros e H; injection H as <-; left; reflexivity|].
        exact (Hsnd s' Ho Hl).
      * split; [intros e H; injection H as <-; right; reflexivity|].
        exact (Hsnd s' Ho Hl).
Qed.

Lemma registers_cons (item : string * data) (table : list (string * data)) :
  registers (item :: table) = registers [item] ++ registers table.
Proof. cbn. rewrite app_nil_r. reflexivity. Qed.

(** The loop of [get] over a table, from any state. *)
Lemma for_each_category_spec (table : list (string * data))
    (s : state device) :
  (forall e, fst (for_each table (get_category gfr) s) = Raise e ->
     e = IndexError \/ e = KeyError "keys")
  /\ (forall k,
        In k (map fst (output (snd (for_each table (get_category gfr) s)))) ->
        In k (map fst table) \/ In k (map fst (output s)))
  /\ (forall k, ~ In k (map fst table) ->
        dict_get (output (snd (for_each table (get_category gfr) s))) k
        = dict_get (output s) k)
  /\ (exists l,
        calls (snd (for_each table (get_category gfr) s)) = calls s ++ l
        /\ requests_within (registers table) l).
Proof.
  revert s; induction table as [|item table IH]; intros s.
  - cbn [for_each ret fst snd]. repeat split.
    + intros e H. discriminate H.
    + intros k H. right. exact H.
    + exists []. split; [rewrite app_nil_r; reflexivity|].
      apply requests_within_nil.
  - destruct (get_category_spec item s) as (H1 & H2 & H3 & _ & (l1 & Hl1 & Hw1)).
    rewrite registers_cons. cbn [for_each map fst In]. unfold bind.
    destruct (get_category gfr item s) as [[[]|e] s1]; cbn [fst snd] in *.
    + destruct (IH s1) as (I1 & I2 & I3 & (l2 & Hl2 & Hw2)).
      split; [exact I1|]. split; [|split].
      * intros k Hk. destruct (I2 k Hk) as [H|H]; [left; right; exact H|].
        destruct (H2 k H) as [E|H']; [left; left; symmetry; exact E|].
        right. exact H'.
      * intros k Hk. rewrite I3 by tauto. apply H3.
        intros E. apply Hk. left. symmetry. exact E.
      * exists (l1 ++ l2). split.
        -- rewrite Hl2, Hl1, app_assoc. reflexivity.
        -- apply requests_within_app; assumption.
    + split; [exact H1|]. split; [|split].
      * intros k Hk. destruct (H2 k Hk) as [E|H'];
          [left; left; symmetry; exact E|right; exact H'].
      * intros k Hk. apply H3. intros E. apply Hk. left. symmetry. exact E.
      * exists l1. split; [exact Hl1|].
        pose proof (requests_within_app _ (registers table) _ [] Hw1
                      (requests_within_nil _)) as Hw.
        rewrite app_nil_r in Hw. exact Hw.
Qed.

(** When the loop of [get] over a table with distinct category names runs
    to its end, every nested category holds a dictionary. *)
Lemma for_each_category_branches (table : list (string * data))
    (s : state device) (c : string) (subs : list (string * options)) :
  fst (for_each table (get_category gfr) s) = Ok tt ->
  NoDup (map fst table) ->
  In (c, Branch subs) table ->
  exists inner,
    dict_get (output (snd (for_each table (get_category gfr) s))) c
    = Some (PDict inner)
    /\ forall k, In k (map fst inner) -> In k (map fst subs).
Proof.
  revert s; induction table as [|item table IH]; intros s Hok Hnd Hin.
  - destruct Hin.
  - cbn [map] in Hnd. inversion Hnd as [|? ? Hnotin Hnd']; subst.
    destruct (get_category_spec item s) as (_ & _ & _ & H4 & _).
    cbn [for_each] in Hok |- *. unfold bind in Hok |- *.
    destruct (get_category gfr item s) as [[[]|e] s1]; cbn [fst snd] in *;
      [|discriminate Hok].
    destruct Hin as [E|Hin].
    + subst item. cbn [fst snd] in *.
      destruct (H4 subs eq_refl) as (inner & Hget & Hk).
      exists inner. split; [|exact Hk].
      destruct (for_each_category_spec table s1) as (_ & _ & I3 & _).
      rewrite (I3 c Hnotin). exact Hget.
    + apply IH; assumption.
Qed.

Lemma get_eq (table : list (string * data)) (s : state device) :
  get gfr table s =
  match for_each table (get_category gfr) (with_output [] s) with
  | (Ok _, s') => (Ok (output s'), s')
  | (Raise e, s') => (Raise e, s')
  end.
Proof. reflexivity. Qed.


(** X4.  Whatever the device answers and however [get] ends, the requests
    that one call of [get] sends are, register by register in the order of
    the table, between zero and four copies of that register's request
    [(address, bytes + 1)]: at most four for each register of the table, and
    no request for anything else. *)
Theorem get_request_bound (table : list (string * data)) (s : state device) :
  exists counts,
    List.length counts = List.length (registers table)
    /\ (forall k, In k counts -> (k <= 4)%nat)
    /\ calls (snd (get gfr table s))
       = calls s ++ request_blocks (registers table) counts.
Proof.
  rewrite get_eq.
  destruct (for_each_category_spec table (with_output [] s))
    as (_ & _ & _ & (l & Hl & (counts & Hlen & Hall & ->))).
  exists counts. split; [exact Hlen|]. split.
  - intros k Hk. rewrite Forall_forall in Hall. exact (Hall k Hk).
  - destruct (for_each table (get_category gfr) (with_output [] s))
      as [[[]|e'] s']; exact Hl.
Qed.

(** X5.  A snapshot that [get] returns has no key that is not a category of
    the table; and, the categories having distinct names, every nested
    category of the table is a key of the snapshot, with a dictionary whose
    keys are among the names of its registers. *)
Theorem get_snapshot_shape (table : list (string * data))
    (s s' : state device) (out : dict) :
  get gfr table s = (Ok out, s') ->
  (forall k, In k (map fst out) -> In k (map fst table))
  /\ (NoDup (map fst table) ->
      forall c subs, In (c, Branch subs) table ->
        exists inner,
          dict_get out c = Some (PDict inner)
          /\ forall k, In k (map fst inner) -> In k (map fst subs)).
Proof.
  rewrite get_eq.
  destruct (for_each_category_spec table (with_output [] s)) as (_ & H2 & _).
  pose proof (for_each_category_branches table (with_output [] s)) as Hb.
  destruct (for_each table (get_category gfr) (with_output [] s))
    as [[[]|e'] s1]; cbn [fst snd] in *; intros H; [|discriminate H].
  injection H as <- <-. split.
  - intros k Hk. destruct (H2 k Hk) as [H|[]]. exact H.
  - intros Hnd c subs Hin. exact (Hb c subs eq_refl Hnd Hin).
Qed.

End SnapshotInvariants.

(** ** The kinds of decoded values *)

(** The report that carries the 16-bit value [v] for the register at
    address [a]: the address, then the low and the high byte. *)
Definition report_of_int16 (a v : Z) : list byte :=
  [byte_of_Z a; byte_of_Z (v mod 256); byte_of_Z (v / 256)].

(** The number whose bit [i] is the flag at position [i] of the mapping. *)
Definition flags_value (d : dict) : Z :=
  fold_right (fun item acc =>
                (match snd item with PBool true => 1 | _ => 0 end) + 2 * acc)
             0 d.

Lemma byte_of_Z_value (z : Z) :
  0 <= z <= 255 -> Z.of_N (Byte.to_N (byte_of_Z z)) = z.
Proof.
  intros Hz. unfold byte_of_Z.
  destruct (Byte.of_N (Z.to_N z)) as [b|] eqn:E.
  - apply Byte.to_of_N in E. rewrite E. lia.
  - apply Byte.of_N_None_iff in E. lia.
Qed.

Lemma getitem_ok_byte_at (report : list byte) (i : nat) (z : Z) :
  getitem report i = Ok z -> z = byte_at report i.
Proof.
  unfold getitem, byte_at. destruct (nth_error report i) as [b|] eqn:E;
    intros H; [|discriminate H].
  injection H as <-. rewrite (nth_error_nth _ _ x00 E). reflexivity.
Qed.

Lemma dict_set_values (P : pyval -> Prop) (d : dict) (k : string) (v : pyval) :
  Forall (fun item => P (snd item)) d -> P v ->
  Forall (fun item => P (snd item)) (dict_set d k v).
Proof.
  intros Hd Hv. induction Hd as [|[k' v'] d Hx Hd IH]; cbn [dict_set].
  - constructor; [exact Hv|constructor].
  - destruct (String.eqb k' k); constructor; assumption.
Qed.

Lemma flags_values (pairs : list (string * ascii)) (acc d : dict) :
  Forall (fun item => exists t, snd item = PBool t) acc ->
  flags pairs acc = Ok d ->
  Forall (fun item => exists t, snd item = PBool t) d.
Proof.
  revert acc; induction pairs as [|[k c] pairs IH]; intros acc Hacc;
    cbn [flags].
  - intros H. injection H as <-. exact Hacc.
  - destruct (py_int c) as [n|e]; cbn [rbind]; [|intros H; discriminate H].
    apply IH.
    apply (dict_set_values (fun v => exists t, v = PBool t));
      [exact Hacc|eexists; reflexivity].
Qed.

(** X6.  The kind of a decoded value follows from the register's format: an
    integer comes from format [i] only and lies in 0..255 for one payload
    byte and in 0..65535 for two; a float comes from format [f] only and is
    not negative; a dictionary comes from format [b] only and holds
    booleans; [None] comes out exactly for the formats the decoder does not
    know; a bare boolean never comes out. *)
Theorem decode_report_value_kind (o : options) (report : list byte)
    (v : pyval) :
  decode_report o report = Ok v ->
  match v with
  | PInt z =>
      format o = "i"%string
      /\ ((bytes o = 1 /\ 0 <= z <= 255) \/ (bytes o = 2 /\ 0 <= z <= 65535))
  | PFloat f => format o = "f"%string /\ PrimFloat.leb 0%float f = true
  | PDict d =>
      format o = "b"%string
      /\ Forall (fun item => exists t, snd item = PBool t) d
  | PNone => known_format o = false
  | PBool _ => False
  end.
Proof.
  intros H. unfold decode_report in H.
  remember Z.shiftl as shl eqn:Hshl.
  destruct (getitem report 0) as [r0|]; cbn [rbind] in H; [|discriminate H].
  destruct (negb (address o =? r0)); [discriminate H|].
  unfold known_format.
  destruct (String.eqb_spec (format o) "b") as [Eb|Eb].
  - destruct (getitem report 1) as [r1|]; cbn [rbind] in H; [|discriminate H].
    destruct (keys o) as [ks|]; cbn [rbind] in H; [|discriminate H].
    destruct (flags (combine ks (rev (format_08b r1))) []) as [d|] eqn:Hd;
      cbn [rbind] in H; [|discriminate H].
    injection H as <-. split; [exact Eb|].
    eapply flags_values; [|exact Hd]. constructor.
  - destruct (String.eqb_spec (format o) "i") as [Ei|Ei]; cbn [andb orb] in *.
    + destruct (Z.eqb_spec (bytes o) 2) as [E2|E2]; cbn [orb].
      * destruct (getitem report 2) as [r2|] eqn:H2; cbn [rbind] in H;
          [|discriminate H].
        destruct (getitem report 1) as [r1|] eqn:H1; cbn [rbind] in H;
          [|discriminate H].
        injection H as <-. split; [exact Ei|]. right. split; [exact E2|].
        apply getitem_ok_byte_at in H1, H2. subst r1 r2 shl.
        pose proof (byte_at_range report 1). pose proof (byte_at_range report 2).
        rewrite Z.shiftl_mul_pow2 by lia. change (2 ^ 8) with 256. lia.
      * destruct (Z.eqb_spec (bytes o) 1) as [E1|E1].
        -- destruct (getitem report 1) as [r1|] eqn:H1; cbn [rbind] in H;
             [|discriminate H].
           injection H as <-. split; [exact Ei|]. left. split; [exact E1|].
           apply getitem_ok_byte_at in H1. subst r1. apply byte_at_range.
        -- rewrite Ei in H |- *. cbn in H. injection H as <-. reflexivity.
    + destruct (String.eqb_spec (format o) "f") as [Ef|Ef].
      * destruct (getitem report 2) as [r2|] eqn:H2; cbn [rbind] in H;
          [|discriminate H].
        destruct (getitem report 1) as [r1|] eqn:H1; cbn [rbind] in H;
          [|discriminate H].
        injection H as <-. split; [exact Ef|].
        apply getitem_ok_byte_at in H1, H2. subst r1 r2 shl.
        rewrite Z.add_comm. unfold byte_at. apply div10_nonneg.
      * injection H as <-. reflexivity.
Qed.

(** ** Registers without a decoder *)

Lemma decode_report_unknown (o : options) (report : list byte) :
  known_format o = false ->
  (1 <= List.length report)%nat ->
  byte_at report 0 = address o ->
  decode_report o report = Ok PNone.
Proof.
  intros Hk Hlen Haddr. rewrite decode_report_framed by assumption.
  unfold known_format in Hk.
  destruct (String.eqb (format o) "b"); [discriminate Hk|].
  destruct (String.eqb (format o) "i"), (bytes o =? 2), (bytes o =? 1),
    (String.eqb (format o) "f"); cbn in Hk; try discriminate Hk; reflexivity.
Qed.

Section UnknownFormat.

Variable device : Type.
Variable gfr : device -> Z -> Z -> list byte * device.

(** X7.  A register whose format (with its payload width) has no decoder is
    not an error: when the device answers with a frame that starts with the
    register's address, the read returns [None] after that one request
    whatever the payload, and [get] stores [None] under the category, which
    is then a key of the snapshot. *)
Theorem get_category_unknown_format (category : string) (o : options)
    (retries : nat) (s : state device) (b : byte) (payload : list byte)
    (d' : device) :
  known_format o = false ->
  gfr (dev s) (address o) (bytes o + 1) = (b :: payload, d') ->
  Z.of_N (Byte.to_N b) = address o ->
  _read gfr o retries s =
    (Ok PNone, mkState (output s) d' (calls s ++ [request o]))
  /\ get_category gfr (category, Leaf o) s =
     (Ok tt,
      mkState (dict_set (output s) category PNone) d' (calls s ++ [request o])).
Proof.
  intros Hk Hg Hb.
  assert (Hd : decode_report o (b :: payload) = Ok PNone)
    by (apply decode_report_unknown; [exact Hk|cbn; lia|exact Hb]).
  assert (Hr : forall r, _read gfr o r s =
                 (Ok PNone, mkState (output s) d' (calls s ++ [request o])))
    by (intros r; rewrite _read_eq, Hg; cbn zeta; rewrite Hd; reflexivity).
  split; [apply Hr|].
  rewrite get_category_leaf, Hr. reflexivity.
Qed.

End UnknownFormat.

(** ** Round trips *)

(** X8.  A two-byte integer register loses nothing: the report built from a
    value between 0 and 65535 (low byte first) decodes to that value, and
    from a decoded value the two payload bytes of the report are its
    remainder and its quotient by 256. *)
Theorem int16_round_trip (o : options) :
  format o = "i"%string -> bytes o = 2 -> 0 <= address o <= 255 ->
  (forall v, 0 <= v <= 65535 ->
     decode_report o (report_of_int16 (address o) v) = Ok (PInt v))
  /\ (forall report v,
        decode_report o report = Ok (PInt v) ->
        byte_at report 1 = v mod 256 /\ byte_at report 2 = v / 256).
Proof.
  intros Hf Hb Ha. split.
  - intros v Hv.
    assert (Hlo : 0 <= v mod 256 <= 255) by (pose proof (Z.mod_pos_bound v 256); lia).
    assert (Hhi : 0 <= v / 256 <= 255)
      by (split; [apply Z.div_pos; lia|
                  apply Z.lt_succ_r, Z.div_lt_upper_bound; lia]).
    rewrite decode_report_framed;
      [|cbn; lia|unfold byte_at, report_of_int16; cbn [nth];
                 apply byte_of_Z_value; exact Ha].
    remember Z.shiftl as shl eqn:Hshl.
    rewrite Hf, Hb. cbn [String.eqb Ascii.eqb Bool.eqb andb Z.eqb Pos.eqb].
    unfold report_of_int16, getitem. cbn [nth_error rbind].
    rewrite !byte_of_Z_value by assumption. subst shl.
    rewrite Z.shiftl_mul_pow2 by lia. change (2 ^ 8) with 256.
    f_equal. f_equal. pose proof (Z.div_mod v 256). lia.
  - intros report v H.
    assert (Hlen : (1 <= List.length report)%nat).
    { destruct report; [discriminate H|cbn; lia]. }
    unfold decode_report in H. remember Z.shiftl as shl eqn:Hshl.
    destruct (getitem report 0) as [r0|]; cbn [rbind] in H; [|discriminate H].
    destruct (negb (address o =? r0)); [discriminate H|].
    rewrite Hf, Hb in H.
    cbn [String.eqb Ascii.eqb Bool.eqb andb Z.eqb Pos.eqb] in H.
    destruct (getitem report 2) as [r2|] eqn:H2; [|discriminate H].
    destruct (getitem report 1) as [r1|] eqn:H1; [|discriminate H].
    unfold rbind in H. injection H as <-.
    apply getitem_ok_byte_at in H1, H2. subst r1 r2 shl.
    pose proof (byte_at_range report 1). pose proof (byte_at_range report 2).
    rewrite Z.shiftl_mul_pow2 by lia. change (2 ^ 8) with 256.
    split.
    + apply (Z.mod_unique _ _ (byte_at report 2)); lia.
    + apply (Z.div_unique _ _ _ (byte_at report 1)); lia.
Qed.

Lemma flags_value_bit_items (x : byte) (ks : list string) :
  (List.length ks <= 8)%nat ->
  flags_value (bit_items ks (Z.of_N (Byte.to_N x)))
  = Z.of_N (Byte.to_N x) mod 2 ^ Z.of_nat (List.length ks).
Proof.
  do 9 (destruct ks as [|? ks];
        [intros _; destruct x; vm_compute; reflexivity|]).
  cbn [List.length]. lia.
Qed.

(** X9.  With at most eight pairwise distinct flag names, the flags of a bit
    field give back the low bits of the payload byte, one bit per name; with
    eight names, as for the [status] register, they give back the whole
    byte. *)
Theorem bitfield_round_trip (o : options) (ks : list string)
    (report : list byte) :
  format o = "b"%string -> keys o = Some ks -> NoDup ks ->
  (List.length ks <= 8)%nat ->
  (2 <= List.length report)%nat -> byte_at report 0 = address o ->
  exists d,
    decode_report o report = Ok (PDict d)
    /\ flags_value d = byte_at report 1 mod 2 ^ Z.of_nat (List.length ks)
    /\ (List.length ks = 8%nat -> flags_value d = byte_at report 1).
Proof.
  intros Hf Hks Hnd Hn Hlen Haddr.
  exists (bit_items ks (byte_at report 1)).
  assert (Hv : flags_value (bit_items ks (byte_at report 1))
               = byte_at report 1 mod 2 ^ Z.of_nat (List.length ks))
    by (unfold byte_at; apply flags_value_bit_items; exact Hn).
  split; [apply decode_bitfield_items; assumption|].
  split; [exact Hv|].
  intros H8. rewrite Hv, H8. change (2 ^ Z.of_nat 8) with 256.
  pose proof (byte_at_range report 1). apply Z.mod_small. lia.
Qed.

(** ** Bit fields with any flag names *)

Lemma dict_set_keys_rev (d : dict) (k : string) (v : pyval) (x : string) :
  x = k \/ In x (map fst d) -> In x (map fst (dict_set d k v)).
Proof.
  induction d as [|[k' v'] d IH]; cbn [dict_set map fst In].
  - intros [H|[]]. left. symmetry. exact H.
  - destruct (String.eqb_spec k' k) as [E|E]; cbn [map fst In].
    + intros [H|[H|H]]; [left; congruence|left; exact H|right; exact H].
    + intros [H|[H|H]]; [right; apply IH; left; exact H|left; exact H|].
      right. apply IH. right. exact H.
Qed.

Lemma dict_set_NoDup (d : dict) (k : string) (v : pyval) :
  NoDup (map fst d) -> NoDup (map fst (dict_set d k v)).
Proof.
  induction d as [|[k' v'] d IH]; cbn [dict_set map fst]; intros Hnd.
  - constructor; [intros []|constructor].
  - inversion Hnd as [|? ? Hnotin Hnd']; subst.
    destruct (String.eqb_spec k' k) as [E|E]; cbn [map fst].
    + constructor; assumption.
    + constructor; [|apply IH; exact Hnd'].
      intros H. destruct (dict_set_keys _ _ _ _ H) as [H'|H'];
        [exact (E H')|exact (Hnotin H')].
Qed.

Lemma dict_set_length (d : dict) (k : string) (v : pyval) :
  (List.length (dict_set d k v) <= S (List.length d))%nat.
Proof.
  induction d as [|[k' v'] d IH]; cbn [dict_set List.length].
  - lia.
  - destruct (String.eqb k' k); cbn [List.length]; lia.
Qed.

Lemma py_int_bitchar (t : bool) : py_int (bitchar t) = Ok (if t then 1 else 0).
Proof. destruct t; reflexivity. Qed.

Lemma py_bool_bit (t : bool) : py_bool (if t then 1 else 0) = t.
Proof. destruct t; reflexivity. Qed.

(** The keys that the comprehension leaves: those it started from and the
    names that meet a bit, each once. *)
Lemma flags_bits_keys (ks : list string) (bs : list bool) (acc d : dict) :
  flags (combine ks (map bitchar bs)) acc = Ok d ->
  NoDup (map fst acc) ->
  NoDup (map fst d)
  /\ (forall k, In k (map fst d) <->
                In k (map fst acc) \/ In k (firstn (List.length bs) ks))
  /\ (List.length d
      <= List.length acc + Nat.min (List.length ks) (List.length bs))%nat.
Proof.
  revert bs acc; induction ks as [|k ks IH]; intros bs acc H Hnd.
  - cbn in H. injection H as <-. rewrite firstn_nil. cbn. repeat split;
      try assumption; try tauto; lia.
  - destruct bs as [|t bs]; cbn [map combine flags] in H.
    + injection H as <-. cbn. repeat split; try assumption; try tauto; lia.
    + rewrite py_int_bitchar in H. cbn [rbind] in H.
      destruct (IH bs _ H (dict_set_NoDup acc k _ Hnd)) as (I1 & I2 & I3).
      split; [exact I1|]. split.
      * intros x. rewrite I2. cbn [List.length firstn In]. split.
        -- intros [Hx|Hx]; [|right; right; exact Hx].
           destruct (dict_set_keys _ _ _ _ Hx) as [E|Hx'];
             [right; left; symmetry; exact E|left; exact Hx'].
        -- intros [Hx|[E|Hx]]; [left; apply dict_set_keys_rev; right; exact Hx|
                                left; apply dict_set_keys_rev; left;
                                symmetry; exact E|right; exact Hx].
      * pose proof (dict_set_length acc k (PBool (py_bool (if t then 1 else 0)))).
        cbn [List.length]. lia.
Qed.

Lemma flags_get_other (ks : list string) (bs : list bool) (acc d : dict)
    (k : string) :
  flags (combine ks (map bitchar bs)) acc = Ok d ->
  ~ In k (firstn (List.length bs) ks) ->
  dict_get d k = dict_get acc k.
Proof.
  revert bs acc; induction ks as [|k0 ks IH]; intros bs acc H Hk.
  - cbn in H. injection H as <-. reflexivity.
  - destruct bs as [|t bs]; cbn [map combine flags] in H.
    + injection H as <-. reflexivity.
    + rewrite py_int_bitchar in H. cbn [rbind] in H.
      cbn [List.length firstn In] in Hk.
      rewrite (IH bs _ H) by tauto.
      apply dict_get_set_other. tauto.
Qed.

(** A name is mapped to the bit of its last position among those that meet
    a bit. *)
Lemma flags_get_last (ks : list string) (bs : list bool) (acc d : dict)
    (i : nat) (k : string) (t : bool) :
  flags (combine ks (map bitchar bs)) acc = Ok d ->
  nth_error ks i = Some k -> nth_error bs i = Some t ->
  (forall j, (i < j)%nat -> (j < List.length bs)%nat ->
     nth_error ks j <> Some k) ->
  dict_get d k = Some (PBool t).
Proof.
  revert bs acc i; induction ks as [|k0 ks IH]; intros bs acc i H Hk Ht Hlast.
  - destruct i; discriminate Hk.
  - destruct bs as [|t0 bs]; [destruct i; discriminate Ht|].
    cbn [map combine flags] in H.
    rewrite py_int_bitchar in H. cbn [rbind] in H. rewrite py_bool_bit in H.
    destruct i as [|i]; cbn [nth_error] in Hk, Ht.
    + injection Hk as ->. injection Ht as ->.
      rewrite (flags_get_other ks bs _ d k H).
      * apply dict_get_set_same.
      * intros Hin. apply In_nth_error in Hin. destruct Hin as [j Hj].
        assert (Hjl : (j < List.length bs)%nat).
        { assert (Hsome : nth_error (firstn (List.length bs) ks) j <> None)
            by congruence.
          apply nth_error_Some in Hsome. rewrite length_firstn in Hsome. lia. }
        rewrite nth_error_firstn in Hj.
        destruct (Nat.ltb_spec j (List.length bs)); [|lia].
        apply (Hlast (S j)); [lia|cbn [List.length]; lia|exact Hj].
    + apply (IH bs _ i H Hk Ht).
      intros j Hij Hj. apply (Hlast (S j)); [lia|cbn [List.length]; lia].
Qed.

(** X10.  A bit field decodes for any list of flag names, repeated or not
    and of any length: the result has each of the first eight names once as a
    key and no other key, so at most min(len(flag names), 8) entries, and a
    name is mapped to the bit at the last of its positions among the first
    eight. *)
Theorem decode_bitfield_any_names (o : options) (ks : list string)
    (report : list byte) :
  format o = "b"%string -> keys o = Some ks ->
  (2 <= List.length report)%nat -> byte_at report 0 = address o ->
  exists d,
    decode_report o report = Ok (PDict d)
    /\ NoDup (map fst d)
    /\ (forall k, In k (map fst d) <-> In k (firstn 8 ks))
    /\ (List.length d <= Nat.min (List.length ks) 8)%nat
    /\ (forall i k,
          (i < 8)%nat -> nth_error ks i = Some k ->
          (forall j, (i < j)%nat -> (j < 8)%nat -> nth_error ks j <> Some k) ->
          dict_get d k
          = Some (PBool (Z.testbit (byte_at report 1) (Z.of_nat i)))).
Proof.
  intros Hf Hks Hlen Haddr.
  pose (bs := map (fun i => Z.testbit (byte_at report 1) (Z.of_nat i))
                  (seq 0 8)).
  destruct (flags_total ks bs []) as [d Hd].
  exists d.
  destruct (flags_bits_keys ks bs [] d Hd) as (H1 & H2 & H3);
    [constructor|].
  split; [|split; [exact H1|split; [|split]]].
  - rewrite decode_report_framed by (try lia; exact Haddr).
    rewrite Hf, Hks. cbn [String.eqb Ascii.eqb Bool.eqb].
    rewrite (getitem_in_range report 1) by lia. cbn [rbind].
    unfold byte_at at 1. rewrite bits_of_byte.
    fold (byte_at report 1). fold bs. rewrite Hd. reflexivity.
  - intros k. rewrite H2. cbn [map In]. unfold bs.
    rewrite length_map, length_seq. tauto.
  - unfold bs in H3. rewrite length_map, length_seq in H3.
    cbn [List.length] in H3. lia.
  - intros i k Hi Hk Hlast.
    apply (flags_get_last ks bs [] d i k _ Hd Hk).
    + unfold bs. rewrite nth_error_map, nth_error_seq.
      destruct (Nat.ltb_spec i 8); [reflexivity|lia].
    + intros j Hij Hj. unfold bs in Hj. rewrite length_map, length_seq in Hj.
      apply Hlast; assumption.
Qed.

(** ** Finding the device *)

(** All Tripp Lite UPSs have this vendor id. *)
Definition VENDOR_ID : Z := 0x09ae.

(** An entry of [hid.enumerate()], with the keys that the driver reads. *)
Record hid_info : Type := mkInfo {
  vendor_id : Z;
  product_id : Z;
  product_string : option string
}.

(** [Battery._get_product_id()], over the entries that [hid.enumerate()]
    returns. *)
Definition _get_product_id (enumerate : list hid_info) : result Z :=
  match find (fun d => vendor_id d =? VENDOR_ID) enumerate with
  | Some d => Ok (product_id d)
  | None => Raise (IOError "Could not find any connected Tripp Lite devices.")
  end.

(** The product id that [Battery.__init__(product_id)] keeps:
    [product_id or self._get_product_id()]. *)
Definition __init__ (given : option Z) (enumerate : list hid_info) : result Z :=
  match given with
  | Some p => if p =? 0 then _get_product_id enumerate else Ok p
  | None => _get_product_id enumerate
  end.

(** [list_devices()] *)
Definition list_devices (enumerate : list hid_info) : list (option string * Z) :=
  map (fun d => (product_string d, product_id d))
      (filter (fun d => vendor_id d =? VENDOR_ID) enumerate).

Lemma _get_product_id_first_listed (enumerate : list hid_info) :
  _get_product_id enumerate =
  match list_devices enumerate with
  | [] => Raise (IOError "Could not find any connected Tripp Lite devices.")
  | (_, p) :: _ => Ok p
  end.
Proof.
  unfold _get_product_id, list_devices.
  induction enumerate as [|d ds IH]; cbn [find filter map].
  - reflexivity.
  - destruct (vendor_id d =? VENDOR_ID); [reflexivity|exact IH].
Qed.

(** X11.  Without a product id, and also with the product id 0, the driver
    takes the product id of the first device that [list_devices] shows, and
    fails with an [IOError] exactly when no connected device has the Tripp
    Lite vendor id; any other product id is kept as given, whatever is
    connected. *)
Theorem default_product_id (enumerate : list hid_info) :
  __init__ None enumerate =
    match list_devices enumerate with
    | [] => Raise (IOError "Could not find any connected Tripp Lite devices.")
    | (_, p) :: _ => Ok p
    end
  /\ __init__ (Some 0) enumerate = __init__ None enumerate
  /\ (forall p, p <> 0 -> __init__ (Some p) enumerate = Ok p)
  /\ ((exists m, __init__ None enumerate = Raise (IOError m)) <->
      (forall d, In d enumerate -> vendor_id d <> VENDOR_ID))
  /\ (forall p, __init__ None enumerate = Ok p ->
        exists d, In d enumerate /\ vendor_id d = VENDOR_ID
                  /\ product_id d = p).
Proof.
  split; [apply _get_product_id_first_listed|].
  split; [reflexivity|]. split.
  - intros p Hp. unfold __init__.
    destruct (Z.eqb_spec p 0); [contradiction|reflexivity].
  - unfold __init__, _get_product_id. split.
    + destruct (find (fun d => vendor_id d =? VENDOR_ID) enumerate)
        as [d|] eqn:Hfind.
      * split.
        -- intros [m H]. discriminate H.
        -- intros Hall. apply find_some in Hfind. destruct Hfind as [Hin Hv].
           apply Z.eqb_eq in Hv. destruct (Hall d Hin Hv).
      * split; [|intros _; eexists; reflexivity].
        intros _ d Hin Hv.
        pose proof (find_none _ _ Hfind d Hin) as Hn. cbn beta in Hn.
        apply Z.eqb_neq in Hn. exact (Hn Hv).
    + intros p H.
      destruct (find (fun d => vendor_id d =? VENDOR_ID) enumerate)
        as [d|] eqn:Hfind; [|discriminate H].
      injection H as <-. apply find_some in Hfind. destruct Hfind as [Hin Hv].
      exists d. repeat split; [exact Hin|apply Z.eqb_eq; exact Hv].
Qed.

(** ** The listing of the command line *)

(** The sixteen digits of ["%x"], in the order of their values. *)
Definition hex_alphabet : list ascii :=
  list_ascii_of_string "0123456789abcdef".

Definition hex_digit (n : Z) : ascii :=
  if (0 <=? n) && (n <? 16) then nth (Z.to_nat n) hex_alphabet "?"%char
  else "?"%char.

(** The hexadecimal digits of [n], most significant first, for at most
    [fuel] digits. *)
Fixpoint hex_digits (fuel : nat) (n : Z) : list ascii :=
  match fuel with
  | O => []
  | S f =>
      if n <? 16 then [hex_digit n]
      else hex_digits f (n / 16) ++ [hex_digit (n mod 16)]
  end.

(** The hexadecimal digits of a positive number; it has no more of them
    than binary digits. *)
Definition hex (n : Z) : list ascii :=
  hex_digits (S (Z.to_nat (Z.log2 n))) n.

(** ["%04x" % z]: lower-case hexadecimal, zero-padded to a width of four,
    the sign counting towards the width. *)
Definition format_04x (z : Z) : list ascii :=
  match z with
  | Z0 => zfill 4 ["0"%char]
  | Zpos p => zfill 4 (hex (Zpos p))
  | Zneg p => "-"%char :: zfill 3 (hex (Zpos p))
  end.

(** [name or "Unknown"] *)
Definition or_unknown (name : option string) : string :=
  match name with
  | None | Some EmptyString => "Unknown"
  | Some n => n
  end.

(** The line that [command_line] prints for an entry of [list_devices()]:
    ["0x%04x %s" % (product_id, name or "Unknown")]. *)
Definition device_line (entry : option string * Z) : string :=
  ("0x" ++ string_of_list_ascii (format_04x (snd entry)) ++ " "
   ++ or_unknown (fst entry))%string.

(** The lines printed by [command_line] with the option [--list]. *)
Definition command_line_list (enumerate : list hid_info) : list string :=
  map device_line (list_devices enumerate).

(** The position of a character in a list, if it occurs there. *)
Fixpoint position (c : ascii) (l : list ascii) : option Z :=
  match l with
  | [] => None
  | x :: l' =>
      if Ascii.eqb x c then Some 0 else option_map Z.succ (position c l')
  end.

Definition hex_digit_value (c : ascii) : option Z := position c hex_alphabet.

(** Reading a hexadecimal numeral, most significant digit first. *)
Definition read_hex (l : list ascii) : option Z :=
  fold_left (fun acc c =>
               match acc, hex_digit_value c with
               | Some a, Some v => Some (16 * a + v)
               | _, _ => None
               end) l (Some 0).

Lemma hex_digit_value_digit (n : Z) :
  0 <= n < 16 -> hex_digit_value (hex_digit n) = Some n.
Proof.
  intros H. remember (Z.to_nat n) as k eqn:Hk.
  assert (Hn : n = Z.of_nat k) by lia.
  assert (Hlt : (k < 16)%nat) by lia.
  subst n. clear H Hk.
  do 16 (destruct k as [|k]; [reflexivity|]). lia.
Qed.

Lemma read_hex_digits (fuel : nat) (n : Z) :
  0 <= n < 16 ^ Z.of_nat fuel -> read_hex (hex_digits fuel n) = Some n.
Proof.
  unfold read_hex. revert n; induction fuel as [|f IH]; intros n Hn.
  - cbn in *. f_equal; lia.
  - cbn [hex_digits]. rewrite Nat2Z.inj_succ, Z.pow_succ_r in Hn by lia.
    destruct (Z.ltb_spec n 16) as [Hlt|Hge].
    + cbn [fold_left]. rewrite hex_digit_value_digit by lia. f_equal; lia.
    + rewrite fold_left_app. cbn [fold_left].
      rewrite IH.
      * rewrite hex_digit_value_digit by (apply Z.mod_pos_bound; lia).
        pose proof (Z.div_mod n 16). f_equal; lia.
      * split; [apply Z.div_pos; lia|apply Z.div_lt_upper_bound; lia].
Qed.

Lemma hex_fuel (n : Z) :
  0 < n -> 0 <= n < 16 ^ Z.of_nat (S (Z.to_nat (Z.log2 n))).
Proof.
  intros Hn. pose proof (Z.log2_nonneg n) as Hl.
  destruct (Z.log2_spec n Hn) as [_ Hup].
  rewrite Nat2Z.inj_succ, Z2Nat.id by exact Hl.
  split; [lia|]. eapply Z.lt_le_trans; [exact Hup|].
  apply Z.pow_le_mono_l. lia.
Qed.

Lemma read_hex_zfill (width : nat) (l : list ascii) :
  read_hex (zfill width l) = read_hex l.
Proof.
  unfold read_hex, zfill. rewrite fold_left_app. f_equal.
  induction (width - List.length l)%nat as [|k IH]; [reflexivity|exact IH].
Qed.

Lemma hex_digits_length (fuel : nat) (n : Z) (k : nat) :
  (1 <= k)%nat -> 0 <= n < 16 ^ Z.of_nat k ->
  (1 <= List.length (hex_digits (S fuel) n) <= k)%nat.
Proof.
  revert n k; induction fuel as [|f IH]; intros n k Hk Hn;
    cbn [hex_digits]; destruct (Z.ltb_spec n 16) as [Hlt|Hge];
    try (cbn [List.length]; lia).
  - cbn [app List.length].
    destruct k as [|[|k]]; [lia| |cbn [List.length]; lia].
    change (16 ^ Z.of_nat 1) with 16 in Hn. lia.
  - rewrite length_app. cbn [List.length].
    destruct k as [|[|k]]; [lia| |].
    + change (16 ^ Z.of_nat 1) with 16 in Hn. lia.
    + rewrite Nat2Z.inj_succ, Z.pow_succ_r in Hn by lia.
      assert (Hq : 0 <= n / 16 < 16 ^ Z.of_nat (S k))
        by (split; [apply Z.div_pos; lia|apply Z.div_lt_upper_bound; lia]).
      pose proof (IH (n / 16) (S k) ltac:(lia) Hq) as HI.
      cbn [hex_digits] in HI. lia.
Qed.

Lemma zfill_length (width : nat) (l : list ascii) :
  List.length (zfill width l) = Nat.max width (List.length l).
Proof. unfold zfill. rewrite length_app, repeat_length. lia. Qed.

(** X12.  The line printed for a listed device with a product id that is not
    negative is [0x], the product id in at least four lower-case
    hexadecimal digits (exactly four up to 0xffff) that read back as the
    product id, a space, and the product name, with [Unknown] for a missing
    or empty name, so that the name part is never empty. *)
Theorem device_line_round_trip (name : option string) (pid : Z) :
  0 <= pid ->
  exists digits,
    device_line (name, pid)
    = ("0x" ++ string_of_list_ascii digits ++ " " ++ or_unknown name)%string
    /\ read_hex digits = Some pid
    /\ (4 <= List.length digits)%nat
    /\ (pid <= 65535 -> List.length digits = 4%nat)
    /\ or_unknown name <> ""%string
    /\ (forall n, name = Some n -> n <> ""%string -> or_unknown name = n).
Proof.
  intros Hpid. exists (format_04x pid).
  split; [reflexivity|].
  assert (Hname : or_unknown name <> ""%string
                  /\ (forall n, name = Some n -> n <> ""%string ->
                                or_unknown name = n)).
  { destruct name as [[|c n]|]; cbn; split; try discriminate;
      intros n' E Hn'; try discriminate E; injection E as <-;
      [contradiction|reflexivity]. }
  destruct pid as [|p|p]; [| |lia].
  - repeat split; try reflexivity; try apply Hname; cbn; lia.
  - cbn [format_04x].
    pose proof (hex_fuel (Z.pos p) ltac:(lia)) as Hfuel.
    split; [|split; [|split; [|exact Hname]]].
    + rewrite read_hex_zfill. unfold hex. apply read_hex_digits. exact Hfuel.
    + rewrite zfill_length. lia.
    + intros Hle. rewrite zfill_length. unfold hex.
      pose proof (hex_digits_length (Z.to_nat (Z.log2 (Z.pos p))) (Z.pos p) 4
                    ltac:(lia)) as Hlen.
      change (16 ^ Z.of_nat 4) with 65536 in Hlen. lia.
Qed.

(** ** A device that answers every register *)

(** The names of a table are distinct: those of its categories, and those
    of the registers of each nested category. *)
Definition distinct_names (table : list (string * data)) : Prop :=
  NoDup (map fst table)
  /\ forall c subs, In (c, Branch subs) table -> NoDup (map fst subs).

Lemma dict_get_In (d : dict) (k : string) (v : pyval) :
  NoDup (map fst d) -> In (k, v) d -> dict_get d k = Some v.
Proof.
  induction d as [|[k' v'] d IH]; cbn [map fst In dict_get]; intros Hnd Hin.
  - destruct Hin.
  - inversion Hnd as [|? ? Hnotin Hnd']; subst.
    destruct Hin as [E|Hin].
    + injection E as -> ->. rewrite String.eqb_refl. reflexivity.
    + destruct (String.eqb_spec k' k) as [E|E]; [|exact (IH Hnd' Hin)].
      subst k'. exfalso. apply Hnotin.
      apply (in_map fst) in Hin. exact Hin.
Qed.

(** A report with the register's address and a byte for every payload
    position of a well-formed register decodes. *)
Lemma decode_report_framed_total (o : options) (report : list byte) :
  well_formed o = true ->
  (1 <= List.length report)%nat ->
  byte_at report 0 = address o ->
  bytes o + 1 <= Z.of_nat (List.length report) ->
  exists v, decode_report o report = Ok v.
Proof.
  intros Hwf Hlen Haddr Hfull.
  destruct (decode_report_total o report Hwf Hlen Hfull) as [H|H];
    [exact H|].
  exfalso. rewrite decode_report_framed in H by assumption.
  unfold well_formed in Hwf.
  repeat rewrite orb_true_iff in Hwf. repeat rewrite andb_true_iff in Hwf.
  remember Z.shiftl as shl eqn:Hshl.
  destruct Hwf as [[[[[Hf Hb] Hk]|[Hf Hb]]|[Hf Hb]]|[Hf Hb]];
    apply String.eqb_eq in Hf; apply Z.eqb_eq in Hb; rewrite Hf in H;
    try rewrite Hb in H;
    cbn [String.eqb Ascii.eqb Bool.eqb andb Z.eqb Pos.eqb] in H;
    rewrite ?(getitem_in_range report 1), ?(getitem_in_range report 2) in H
      by lia;
    cbn [rbind] in H; try discriminate H.
  destruct (keys o) as [ks|]; [|discriminate Hk]. cbn [rbind] in H.
  unfold byte_at in H.
  destruct (flags_of_byte_total ks (nth 1 report x00)) as [d Hd].
  rewrite Hd in H. discriminate H.
Qed.

Section HealthyDevice.

Variable device : Type.
Variable gfr : device -> Z -> Z -> list byte * device.

Local Abbreviation sub_body category :=
  (fun sub : string * options =>
     let (subcategory, o) := sub in
     bind (_read gfr o 3) (fun v => setitem2 category subcategory v)).

(** In every state the device answers the request of the register [o] with
    a report that starts with the address and has a byte for every payload
    position. *)
Definition answers_well (o : options) : Prop :=
  forall d, exists b rest d',
    gfr d (address o) (bytes o + 1) = (b :: rest, d')
    /\ Z.of_N (Byte.to_N b) = address o
    /\ bytes o + 1 <= Z.of_nat (List.length (b :: rest)).

Lemma _read_answers_well (o : options) (retries : nat) (s : state device) :
  well_formed o = true -> answers_well o ->
  exists v d',
    _read gfr o retries s =
    (Ok v, mkState (output s) d' (calls s ++ [request o])).
Proof.
  intros Hwf Hans. destruct (Hans (dev s)) as (b & rest & d' & Hg & Hb & Hlen).
  destruct (decode_report_framed_total o (b :: rest) Hwf
              ltac:(cbn; lia) Hb Hlen) as [v Hv].
  exists v, d'. rewrite _read_eq, Hg. cbn zeta. rewrite Hv. reflexivity.
Qed.

Lemma for_each_subs_healthy (category : string)
    (subs : list (string * options)) (s : state device) (inner : dict) :
  forallb (fun sub => well_formed (snd sub)) subs = true ->
  (forall sub, In sub subs -> answers_well (snd sub)) ->
  NoDup (map fst subs) ->
  (forall k, In k (map fst subs) -> ~ In k (map fst inner)) ->
  dict_get (output s) category = Some (PDict inner) ->
  exists items s',
    for_each subs (sub_body category) s = (Ok tt, s')
    /\ output s' = dict_set (output s) category (PDict (inner ++ items))
    /\ map fst items = map fst subs
    /\ calls s' = calls s ++ map request (map snd subs).
Proof.
  revert s inner; induction subs as [|[k o] subs IH];
    intros s inner Hwf Hans Hnd Hfresh Hget.
  - exists [], s. cbn [for_each ret map]. rewrite !app_nil_r.
    repeat split. symmetry. apply dict_set_get. exact Hget.
  - cbn [forallb snd] in Hwf. apply andb_true_iff in Hwf as [Ho Hsubs].
    cbn [map fst] in Hnd, Hfresh.
    inversion Hnd as [|? ? Hnotin Hnd']; subst.
    destruct (_read_answers_well o 3 s Ho (Hans (k, o) (or_introl eq_refl)))
      as (v & d' & Hr).
    destruct (IH (mkState (dict_set (output s) category
                             (PDict (dict_set inner k v)))
                    d' (calls s ++ [request o]))
                (dict_set inner k v) Hsubs)
      as (items & s' & Hrun & Hout & Hkeys & Hcalls).
    + intros sub Hin. apply Hans. right. exact Hin.
    + exact Hnd'.
    + intros x Hx Hin. destruct (dict_set_keys _ _ _ _ Hin) as [E|Hin'].
      * subst x. exact (Hnotin Hx).
      * exact (Hfresh x (or_intror Hx) Hin').
    + cbn [output]. apply dict_get_set_same.
    + exists ((k, v) :: items), s'. split; [|split; [|split]].
      * cbn [for_each]. unfold bind at 1. unfold bind at 1. rewrite Hr.
        unfold setitem2 at 1. cbn [output dev calls]. rewrite Hget.
        exact Hrun.
      * rewrite Hout. cbn [output]. rewrite dict_set_set.
        rewrite (dict_set_fresh inner k v)
          by (apply Hfresh; left; reflexivity).
        rewrite <- app_assoc. reflexivity.
      * cbn [map fst]. rewrite Hkeys. reflexivity.
      * rewrite Hcalls. cbn [calls map snd]. rewrite <- app_assoc.
        reflexivity.
Qed.

Lemma for_each_category_healthy (table : list (string * data))
    (s : state device) :
  well_formed_table table = true ->
  (forall o, In o (registers table) -> answers_well o) ->
  distinct_names table ->
  (forall k, In k (map fst table) -> ~ In k (map fst (output s))) ->
  exists entries s',
    for_each table (get_category gfr) s = (Ok tt, s')
    /\ output s' = output s ++ entries
    /\ map fst entries = map fst table
    /\ (forall c subs, In (c, Branch subs) table ->
          exists items,
            In (c, PDict items) entries /\ map fst items = map fst subs)
    /\ calls s' = calls s ++ map request (registers table).
Proof.
  revert s; induction table as [|[c d] table IH];
    intros s Hwf Hans [Hnd Hsubnd] Hfresh.
  - exists [], s. cbn. rewrite !app_nil_r. repeat split. intros c subs [].
  - cbn [well_formed_table forallb snd] in Hwf.
    apply andb_true_iff in Hwf as [Hd Htable].
    cbn [map fst] in Hnd, Hfresh.
    inversion Hnd as [|? ? Hnotin Hnd']; subst.
    rewrite registers_cons in Hans |- *.
    assert (Hstep : exists v s1,
              get_category gfr (c, d) s = (Ok tt, s1)
              /\ output s1 = output s ++ [(c, v)]
              /\ (forall subs, d = Branch subs ->
                    exists items, v = PDict items
                                  /\ map fst items = map fst subs)
              /\ calls s1 = calls s ++ map request (registers [(c, d)])).
    { destruct d as [o|subs]; cbn [well_formed_data] in Hd.
      - destruct (_read_answers_well o 3 s Hd) as (v & d' & Hr).
        { apply Hans. apply in_or_app. left. left. reflexivity. }
        exists v. eexists. rewrite get_category_leaf, Hr.
        split; [reflexivity|]. cbn [with_output output calls].
        split; [apply dict_set_fresh, Hfresh; left; reflexivity|].
        split; [intros subs E; discriminate E|reflexivity].
      - destruct (for_each_subs_healthy c subs
                    (with_output (dict_set (output s) c (PDict [])) s) []
                    Hd) as (items & s1 & Hrun & Hout & Hkeys & Hcalls).
        + intros sub Hin. apply Hans. apply in_or_app. left.
          cbn. rewrite app_nil_r. apply in_map. exact Hin.
        + apply (Hsubnd c subs). left. reflexivity.
        + intros k _ [].
        + cbn [with_output output]. apply dict_get_set_same.
        + exists (PDict items), s1.
          assert (Hgc :
            get_category gfr (c, Branch subs) s =
            try_except_IOError (for_each subs (sub_body c)) (ret tt)
              (with_output (dict_set (output s) c (PDict [])) s))
            by reflexivity.
          rewrite Hgc. unfold try_except_IOError. rewrite Hrun.
          split; [reflexivity|]. split; [|split].
          * rewrite Hout. cbn [with_output output app].
            rewrite dict_set_set.
            apply dict_set_fresh, Hfresh. left. reflexivity.
          * intros subs' E. injection E as <-. exists items.
            split; [reflexivity|exact Hkeys].
          * rewrite Hcalls. cbn [with_output calls].
            cbn [registers flat_map snd]. rewrite app_nil_r. reflexivity. }
    destruct Hstep as (v & s1 & Hgc & Hout1 & Hv & Hcalls1).
    destruct (IH s1 Htable) as (entries & s' & Hrun & Hout & Hkeys & Hbr & Hcalls).
    + intros o Hin. apply Hans. apply in_or_app. right. exact Hin.
    + split; [exact Hnd'|].
      intros c' subs' Hin. apply (Hsubnd c' subs'). right. exact Hin.
    + intros k Hk. rewrite Hout1, map_app, in_app_iff. cbn [map fst In].
      intros [H|[H|[]]]; [exact (Hfresh k (or_intror Hk) H)|].
      subst k. exact (Hnotin Hk).
    + exists ((c, v) :: entries), s'. split; [|split; [|split; [|split]]].
      * cbn [for_each]. unfold bind. rewrite Hgc. exact Hrun.
      * rewrite Hout, Hout1, <- app_assoc. reflexivity.
      * cbn [map fst]. rewrite Hkeys. reflexivity.
      * intros c' subs' [E|Hin].
        -- injection E as Ec Ed. subst c' d.
           destruct (Hv subs' eq_refl) as (items & -> & Hk).
           exists items. split; [left; reflexivity|exact Hk].
        -- destruct (Hbr c' subs' Hin) as (items & Hi & Hk).
           exists items. split; [right; exact Hi|exact Hk].
      * rewrite Hcalls, Hcalls1, map_app, app_assoc. reflexivity.
Qed.


End HealthyDevice.

Arguments answers_well {device} gfr o.

(** ** Failures that the snapshot builder absorbs *)

(** A report that does not start with the register's address fails the
    address check, whatever its length. *)
Lemma decode_report_misaddressed (o : options) (report : list byte) :
  (1 <= List.length report)%nat ->
  byte_at report 0 <> address o ->
  decode_report o report = Raise (IOError "Received unexpected data.").
Proof.
  intros Hlen Haddr. unfold decode_report.
  rewrite (getitem_in_range report 0) by lia. cbn [rbind].
  destruct (Z.eqb_spec (address o) (byte_at report 0)) as [E|E].
  - congruence.
  - reflexivity.
Qed.

Lemma registers_app (t1 t2 : list (string * data)) :
  registers (t1 ++ t2) = registers t1 ++ registers t2.
Proof. unfold registers. apply flat_map_app. Qed.

Section CaughtFailures.

Variable device : Type.
Variable gfr : device -> Z -> Z -> list byte * device.

Local Abbreviation sub_body category :=
  (fun sub : string * options =>
     let (subcategory, o) := sub in
     bind (_read gfr o 3) (fun v => setitem2 category subcategory v)).

(** The read of a well-formed register that is never answered with a
    truncated echo gives a value or fails with an [IOError]. *)
Lemma _read_outcome (o : options) (retries : nat) (s : state device) :
  well_formed o = true -> no_truncated_echo gfr o ->
  (exists v, fst (_read gfr o retries s) = Ok v)
  \/ (exists m, fst (_read gfr o retries s) = Raise (IOError m)).
Proof.
  intros Hwf Hecho. revert s; induction retries as [|r IH]; intros s;
    rewrite _read_eq;
    pose proof (Hecho (dev s)) as He;
    destruct (gfr (dev s) (address o) (bytes o + 1)) as [report d'];
    cbn [fst] in He; cbn zeta;
    (destruct report as [|b rest]; cbn [fst];
     [|destruct (Z.eq_dec (Z.of_N (Byte.to_N b)) (address o)) as [Hb|Hb];
       [destruct (decode_report_framed_total o (b :: rest) Hwf
                    ltac:(cbn; lia) Hb (He b rest eq_refl Hb)) as [v Hv];
        left; exists v; exact Hv|
        right; eexists;
        exact (decode_report_misaddressed o (b :: rest) ltac:(cbn; lia) Hb)]]).
  - right. eexists. reflexivity.
  - apply IH.
Qed.

(** The registers of a nested category split into those that are read and,
    when there is one, the first whose read fails, with the rest. *)
Lemma subs_prefix_exists (subs : list (string * options)) (s : state device) :
  forallb (fun sub => well_formed (snd sub)) subs = true ->
  (forall sub, In sub subs -> no_truncated_echo gfr (snd sub)) ->
  exists pre post items s1,
    subs = pre ++ post
    /\ reads_ok gfr pre s items s1
    /\ match post with
       | [] => True
       | (_, o) :: _ => exists m, fst (_read gfr o 3 s1) = Raise (IOError m)
       end.
Proof.
  revert s; induction subs as [|[k o] subs IH]; intros s Hwf Hecho.
  - exists [], [], [], s. repeat split.
  - cbn [forallb snd] in Hwf. apply andb_true_iff in Hwf as [Ho Hsubs].
    destruct (_read_outcome o 3 s Ho (Hecho (k, o) (or_introl eq_refl)))
      as [[v Hv]|[m Hm]].
    + destruct (_read gfr o 3 s) as [r s2] eqn:Hr. cbn [fst] in Hv. subst r.
      destruct (IH s2 Hsubs) as (pre & post & items & s1 & -> & Hok & Hpost).
      { intros sub Hin. apply Hecho. right. exact Hin. }
      exists ((k, o) :: pre), post, ((k, v) :: items), s1.
      split; [reflexivity|]. split; [|exact Hpost].
      exists v, s2, items. repeat split; assumption.
    + exists [], ((k, o) :: subs), [], s. split; [reflexivity|].
      split; [split; reflexivity|]. exists m. exact Hm.
Qed.

(** The loop body for one item whose registers are well formed and never
    answered with a truncated echo: it ends normally, and leaves under the
    category what could be read. *)
Lemma get_category_outcome (c : string) (d : data) (s : state device) :
  well_formed_data d = true ->
  (forall o, In o (registers [(c, d)]) -> no_truncated_echo gfr o) ->
  exists s',
    get_category gfr (c, d) s = (Ok tt, s')
    /\ match d with
       | Leaf o =>
           (forall v, fst (_read gfr o 3 s) = Ok v ->
              dict_get (output s') c = Some v)
           /\ (forall e, fst (_read gfr o 3 s) = Raise e ->
                 (exists m, e = IOError m) /\ output s' = output s)
       | Branch subs =>
           exists pre post items s1,
             subs = pre ++ post
             /\ reads_ok gfr pre s items s1
             /\ dict_get (output s') c = Some (PDict (dict_of_items items))
             /\ match post with
                | [] => True
                | (_, o) :: _ =>
                    exists m, fst (_read gfr o 3 s1) = Raise (IOError m)
                end
       end.
Proof.
  intros Hwf Hecho. destruct d as [o|subs]; cbn [well_formed_data] in Hwf.
  - rewrite get_category_leaf.
    pose proof (_read_output _ gfr o 3 s) as Hout.
    destruct (_read_outcome o 3 s Hwf) as [[v Hv]|[m Hm]].
    { apply Hecho. cbn. left. reflexivity. }
    + destruct (_read gfr o 3 s) as [r s1]. cbn [fst snd] in *. subst r.
      eexists. split; [reflexivity|]. split.
      * intros v' E. injection E as <-. cbn [with_output output].
        apply dict_get_set_same.
      * intros e E. discriminate E.
    + destruct (_read gfr o 3 s) as [r s1]. cbn [fst snd] in *. subst r.
      exists s1. split; [reflexivity|]. split.
      * intros v' E. discriminate E.
      * intros e E. injection E as <-. split; [exists m; reflexivity|].
        exact Hout.
  - destruct (subs_prefix_exists subs s Hwf)
      as (pre & post & items & s1 & -> & Hok & Hpost).
    { intros sub Hin. apply Hecho. cbn. rewrite app_nil_r.
      apply in_map. exact Hin. }
    assert (Hgc :
      get_category gfr (c, Branch (pre ++ post)) s =
      try_except_IOError (for_each (pre ++ post) (sub_body c)) (ret tt)
        (with_output (dict_set (output s) c (PDict [])) s))
      by reflexivity.
    rewrite Hgc. clear Hgc. unfold try_except_IOError, ret.
    rewrite (for_each_subs_prefix _ gfr c pre post _ _ items []
               (reads_ok_with_output _ gfr pre _ s s1 items Hok))
      by (cbn [with_output output]; apply dict_get_set_same).
    cbn [with_output output dev calls]. rewrite dict_set_set.
    fold (dict_of_items items).
    destruct post as [|[k o] post].
    + cbn [for_each ret]. eexists. split; [reflexivity|].
      exists pre, [], items, s1. rewrite app_nil_r.
      repeat split; try assumption.
      cbn [output]. apply dict_get_set_same.
    + destruct Hpost as [m Hm].
      cbn [for_each]. unfold bind at 1. unfold bind at 1.
      change (mkState (dict_set (output s) c (PDict (dict_of_items items)))
                (dev s1) (calls s1))
        with (with_output
                (dict_set (output s) c (PDict (dict_of_items items))) s1).
      rewrite !_read_with_output. cbn [fst snd]. rewrite Hm.
      eexists. split; [reflexivity|].
      exists pre, ((k, o) :: post), items, s1.
      split; [reflexivity|]. split; [exact Hok|]. split.
      * cbn [with_output output]. apply dict_get_set_same.
      * exists m. exact Hm.
Qed.

Lemma for_each_category_ends (table : list (string * data))
    (s : state device) :
  well_formed_table table = true ->
  (forall o, In o (registers table) -> no_truncated_echo gfr o) ->
  exists s', for_each table (get_category gfr) s = (Ok tt, s').
Proof.
  revert s; induction table as [|[c d] table IH]; intros s Hwf Hecho.
  - exists s. reflexivity.
  - cbn [well_formed_table forallb snd] in Hwf.
    apply andb_true_iff in Hwf as [Hd Htable].
    rewrite registers_cons in Hecho.
    destruct (get_category_outcome c d s Hd) as (s1 & H1 & _).
    { intros o Hin. apply Hecho. apply in_or_app. left. exact Hin. }
    cbn [for_each]. unfold bind. rewrite H1. apply IH; [exact Htable|].
    intros o Hin. apply Hecho. apply in_or_app. right. exact Hin.
Qed.


End CaughtFailures.

(** ** The further statements at concrete devices and reports *)

(** Answers with the report number and as many payload bytes as were asked
    for. *)
Definition full_answer (a n : Z) : list byte :=
  byte_of_Z a :: repeat x05 (Z.to_nat (n - 1)).

Lemma structure_distinct_names : distinct_names structure.
Proof.
  split.
  - cbn. repeat (constructor; [cbn [In]; intuition discriminate|]).
    constructor.
  - intros c subs Hin. cbn in Hin.
    repeat (destruct Hin as [E|Hin];
            [try discriminate E; injection E as <- <-; cbn;
             repeat (constructor; [cbn [In]; intuition discriminate|]);
             constructor|]).
    destruct Hin.
Qed.

Lemma read_more_retries_witness :
  _read scripted_device (int1 48) (1 + 2) (start [[]; [x30; x05]])
  = _read scripted_device (int1 48) 1 (start [[]; [x30; x05]]).
Proof.
  apply (read_more_retries _ scripted_device (int1 48) 1 2
           (start [[]; [x30; x05]])).
  cbn. discriminate.
Defined.


Lemma get_snapshot_shape_witness :
  exists out,
    fst (get (fixed_device no_frequency) structure (start tt)) = Ok out
    /\ forall k, In k (map fst out) -> In k (map fst structure).
Proof.
  destruct (get (fixed_device no_frequency) structure (start tt))
    as [[out|e] s'] eqn:E.
  - exists out. split; [reflexivity|].
    exact (proj1 (get_snapshot_shape _ (fixed_device no_frequency)
                    structure (start tt) s' out E)).
  - vm_compute in E. discriminate E.
Defined.

Lemma decode_report_value_kind_witness :
  format (int2 71) = "i"%string
  /\ ((bytes (int2 71) = 1 /\ 0 <= 259 <= 255)
      \/ (bytes (int2 71) = 2 /\ 0 <= 259 <= 65535)).
Proof.
  apply (decode_report_value_kind (int2 71) [x47; x03; x01] (PInt 259)).
  reflexivity.
Defined.

Lemma get_category_unknown_format_witness :
  get_category (fixed_device (fun _ _ => [x09; x01; x02]))
    ("runtime"%string, Leaf (mkOptions 9 2 "h" None)) (start tt)
  = (Ok tt, mkState [("runtime"%string, PNone)] tt [(9, 3)]).
Proof.
  destruct (get_category_unknown_format _
              (fixed_device (fun _ _ => [x09; x01; x02])) "runtime"
              (mkOptions 9 2 "h" None) 3 (start tt) x09 [x01; x02] tt)
    as [_ H].
  - reflexivity.
  - reflexivity.
  - reflexivity.
  - exact H.
Defined.

Lemma int16_round_trip_witness :
  decode_report (int2 71) (report_of_int16 71 259) = Ok (PInt 259).
Proof.
  destruct (int16_round_trip (int2 71)) as [H _].
  - reflexivity.
  - reflexivity.
  - cbn. lia.
  - apply (H 259). lia.
Defined.

Lemma bitfield_round_trip_witness :
  exists d,
    decode_report (mkOptions 50 1 "b" (Some status_keys)) [x32; x06]
    = Ok (PDict d)
    /\ flags_value d = 6.
Proof.
  destruct (bitfield_round_trip (mkOptions 50 1 "b" (Some status_keys))
              status_keys [x32; x06] eq_refl eq_refl status_keys_NoDup)
    as (d & Hd & _ & Hv).
  - cbn. lia.
  - cbn. lia.
  - reflexivity.
  - exists d. split; [exact Hd|]. exact (Hv eq_refl).
Defined.

Lemma decode_bitfield_any_names_witness :
  exists d,
    decode_report (mkOptions 50 1 "b" (Some ["a"; "a"]%string)) [x32; x01]
    = Ok (PDict d)
    /\ (List.length d <= 2)%nat
    /\ dict_get d "a" = Some (PBool false).
Proof.
  destruct (decode_bitfield_any_names
              (mkOptions 50 1 "b" (Some ["a"; "a"]%string))
              ["a"; "a"]%string [x32; x01] eq_refl eq_refl)
    as (d & Hd & _ & _ & Hlen & Hget).
  - cbn. lia.
  - reflexivity.
  - exists d. split; [exact Hd|]. split; [exact Hlen|].
    apply (Hget 1%nat "a"%string); [lia|reflexivity|].
    intros j Hij Hj.
    do 2 (destruct j as [|j]; [lia|]). destruct j; discriminate.
Defined.

Lemma device_line_round_trip_witness :
  exists digits,
    device_line (None, 0x1234)
    = ("0x" ++ string_of_list_ascii digits ++ " Unknown")%string
    /\ read_hex digits = Some 0x1234.
Proof.
  destruct (device_line_round_trip None 0x1234) as (digits & Hl & Hr & _).
  - lia.
  - exists digits. split; [exact Hl|exact Hr].
Defined.


